(** * RPD validator: reference-integrity checks over JSON documents

    A shallow embedding of [rpdvalidator/validate.py] together with a model
    of the helpers it imports from [rpdvalidator.jsonpath_utils], and the
    properties of the checks proved over that embedding. *)

From Stdlib Require Import List String Ascii ZArith Bool Arith Lia Permutation.
From Stdlib Require Import DecimalString DecimalNat.
Import ListNotations.
Local Open Scope string_scope.
Local Open Scope list_scope.

Set Implicit Arguments.

(** ** Documents *)

(** A loaded document is the value [json.load] produces: [None], a [bool],
    an [int], a [str], a [list] or a [dict] with [str] keys.  A [dict] is
    kept as its items in insertion order; the keys of a [dict] are pairwise
    distinct and [dict_get] reads the first binding.  The numbers of the
    model are the integers; floating-point numbers are left out, the checks
    never compute with a number, they only compare values. *)
Unset Elimination Schemes.
Inductive json : Type :=
| JNull
| JBool (b : bool)
| JInt (n : Z)
| JStr (s : string)
| JArr (items : list json)
| JObj (fields : list (string * json)).
Set Elimination Schemes.

Fixpoint dict_get (k : string) (fields : list (string * json)) : option json :=
  match fields with
  | [] => None
  | (k', v) :: rest => if String.eqb k k' then Some v else dict_get k rest
  end.

(** ** Induction over documents *)

Section JsonInduction.

Variable P : json -> Prop.
Hypothesis Hnull : P JNull.
Hypothesis Hbool : forall b, P (JBool b).
Hypothesis Hint : forall n, P (JInt n).
Hypothesis Hstr : forall s, P (JStr s).
Hypothesis Harr : forall items, Forall P items -> P (JArr items).
Hypothesis Hobj : forall fields, Forall (fun kv => P (snd kv)) fields -> P (JObj fields).

Fixpoint json_ind (j : json) : P j :=
  match j with
  | JNull => Hnull
  | JBool b => Hbool b
  | JInt n => Hint n
  | JStr s => Hstr s
  | JArr items =>
      Harr ((fix all (l : list json) : Forall P l :=
               match l with
               | [] => Forall_nil P
               | x :: l' => Forall_cons x (json_ind x) (all l')
               end) items)
  | JObj fields =>
      Hobj ((fix all (l : list (string * json)) : Forall (fun kv => P (snd kv)) l :=
               match l with
               | [] => Forall_nil _
               | kv :: l' => Forall_cons kv (json_ind (snd kv)) (all l')
               end) fields)
  end.

End JsonInduction.

(** Equality of documents is decidable. *)
Definition json_eq_dec : forall a b : json, {a = b} + {a <> b}.
Proof.
  fix IH 1.
  assert (list_dec : forall l m : list json, {l = m} + {l <> m}).
  { fix IHl 1. intros [|x l] [|y m]; try (right; discriminate); [left; reflexivity|].
    destruct (IH x y) as [->|n]; [|right; congruence].
    destruct (IHl l m) as [->|n]; [left; reflexivity|right; congruence]. }
  assert (fields_dec : forall l m : list (string * json), {l = m} + {l <> m}).
  { fix IHl 1. intros [|[k x] l] [|[k' y] m]; try (right; discriminate); [left; reflexivity|].
    destruct (string_dec k k') as [->|n]; [|right; congruence].
    destruct (IH x y) as [->|n]; [|right; congruence].
    destruct (IHl l m) as [->|n]; [left; reflexivity|right; congruence]. }
  intros [|b|n|s|l|f] [|b'|n'|s'|l'|f']; try (right; discriminate).
  - left; reflexivity.
  - destruct (bool_dec b b') as [->|n]; [left; reflexivity|right; congruence].
  - destruct (Z.eq_dec n n') as [->|n0]; [left; reflexivity|right; congruence].
  - destruct (string_dec s s') as [->|n]; [left; reflexivity|right; congruence].
  - destruct (list_dec l l') as [->|n]; [left; reflexivity|right; congruence].
  - destruct (fields_dec f f') as [->|n]; [left; reflexivity|right; congruence].
Defined.

(** ** Python run-time behaviour the source relies on *)

(** The exceptions the modelled code can raise. *)
Inductive exn : Type :=
| MalformedExpression
| TypeError
| AttributeError.

Inductive result (A : Type) : Type :=
| Ok (a : A)
| Raise (e : exn).

Arguments Ok {A} a.
Arguments Raise {A} e.

Definition bind {A B : Type} (c : result A) (k : A -> result B) : result B :=
  match c with
  | Ok a => k a
  | Raise e => Raise e
  end.

Notation "x <- c ;; k" := (bind c (fun x => k))
  (at level 61, c at next level, right associativity).

(** [a == b] on loaded values: [bool] is a subclass of [int], so [True == 1];
    lists compare element-wise; dicts compare as maps. *)
Fixpoint py_eq (a b : json) : bool :=
  match a, b with
  | JNull, JNull => true
  | JBool x, JBool y => Bool.eqb x y
  | JBool x, JInt n => Z.eqb (if x then 1 else 0) n
  | JInt n, JBool y => Z.eqb n (if y then 1 else 0)
  | JInt n, JInt m => Z.eqb n m
  | JStr s, JStr t => String.eqb s t
  | JArr l, JArr m =>
      (fix all2 (l m : list json) : bool :=
         match l, m with
         | [], [] => true
         | x :: l', y :: m' => py_eq x y && all2 l' m'
         | _, _ => false
         end) l m
  | JObj f, JObj g =>
      Nat.eqb (List.length f) (List.length g)
      && forallb (fun kv => match dict_get (fst kv) g with
                            | Some w => py_eq (snd kv) w
                            | None => false
                            end) f
  | _, _ => false
  end.

(** [x in l] for a list [l]. *)
Definition py_in (x : json) (l : list json) : bool :=
  existsb (fun e => py_eq e x) l.

(** Only immutable values hash: a [list] or a [dict] inside [set(...)]
    raises [TypeError]. *)
Definition hashable (v : json) : bool :=
  match v with
  | JArr _ | JObj _ => false
  | _ => true
  end.

(** [set(ids)], built element by element from the left; [seen] is the set
    so far. *)
Fixpoint py_set_from (seen ids : list json) : result (list json) :=
  match ids with
  | [] => Ok seen
  | x :: rest =>
      if hashable x
      then py_set_from (if py_in x seen then seen else seen ++ [x]) rest
      else Raise TypeError
  end.

Definition py_set (ids : list json) : result (list json) := py_set_from [] ids.

(** Iterating a value, as [enumerate(v)] and [for x in v] do: a list gives
    its items, a dict its keys, a string its characters; the other values
    raise [TypeError]. *)
Definition py_iter (v : json) : result (list json) :=
  match v with
  | JArr items => Ok items
  | JObj fields => Ok (map (fun kv => JStr (fst kv)) fields)
  | JStr s => Ok (map (fun c => JStr (String c EmptyString)) (list_ascii_of_string s))
  | _ => Raise TypeError
  end.

(** [d.get(key, default)]; only a dict has the method. *)
Definition py_get (d : json) (key : string) (default : json) : result json :=
  match d with
  | JObj fields => Ok (match dict_get key fields with
                       | Some v => v
                       | None => default
                       end)
  | _ => Raise AttributeError
  end.

(** [s[1:]]. *)
Definition py_tail (s : string) : string :=
  match s with
  | EmptyString => EmptyString
  | String _ t => t
  end.

(** [str(n)] for a non-negative [int]. *)
Definition str_of_nat (n : nat) : string := NilZero.string_of_uint (Nat.to_uint n).

(** ** Path expressions ([rpdvalidator.jsonpath_utils]) *)

Inductive step : Type :=
| Field (name : string)
| Wildcard.

Definition flush (buf : string) : list step :=
  if String.eqb buf "" then [] else [Field buf].

(** Splitting the text of an expression into steps on [.] and [[*]]; [buf]
    holds the characters of the field name being read.  Bracketed content
    other than [*] has no reading. *)
Fixpoint tokenize (s buf : string) : option (list step) :=
  match s with
  | EmptyString => Some (flush buf)
  | String "." rest => option_map (app (flush buf)) (tokenize rest "")
  | String "[" (String "*" (String "]" rest)) =>
      option_map (app (flush buf ++ [Wildcard])) (tokenize rest "")
  | String "[" _ => None
  | String "]" _ => None
  | String c rest => tokenize rest (buf ++ String c "")%string
  end.

(** Modelled from the spec: the parser of [jsonpath_utils], which is not in
    the source tree.  An expression is a path from the root, written with
    or without the leading [$]; it is split into steps on [.] and [[*]],
    [[*]] is the wildcard and everything else between delimiters is a field
    name; any other bracketed content is a parse error. *)
Definition parse (expression : string) : option (list step) :=
  match expression with
  | String "$" rest => tokenize rest ""
  | _ => tokenize expression ""
  end.

Definition well_formed (expression : string) : bool :=
  match parse expression with
  | Some _ => true
  | None => false
  end.

(** One step applied to one node of the working set. *)
Definition apply_step (st : step) (node : json) : list json :=
  match st, node with
  | Field name, JObj fields =>
      match dict_get name fields with
      | Some v => [v]
      | None => []
      end
  | Wildcard, JArr items => items
  | _, _ => []
  end.

(** Modelled from the spec: the evaluator of [jsonpath_utils].  Starting
    from the working set that holds the root alone, each step is applied to
    every node of the working set, left to right, and the results form the
    next working set. *)
Definition run_steps (working : list json) (steps : list step) : list json :=
  fold_left (fun working st => flat_map (apply_step st) working) steps working.

Definition evaluate (steps : list step) (document : json) : list json :=
  run_steps [document] steps.

(** Modelled from the spec: [find_all] of [jsonpath_utils], which is not in
    the source tree.  The expression is parsed first; a text that cannot be
    parsed raises [MalformedExpression], any other is evaluated. *)
Definition find_all (expression : string) (document : json) : result (list json) :=
  match parse expression with
  | None => Raise MalformedExpression
  | Some steps => Ok (evaluate steps document)
  end.

(** Modelled from the spec: [find_all_by_jsonpaths] of [jsonpath_utils],
    which is not in the source tree.  The expressions are run against the
    same document one after the other and their results are joined in that
    order. *)
Fixpoint find_all_by_jsonpaths (expressions : list string) (document : json)
  : result (list json) :=
  match expressions with
  | [] => Ok []
  | e :: rest =>
      found <- find_all e document ;;
      others <- find_all_by_jsonpaths rest document ;;
      Ok (found ++ others)
  end.

(** The recursive walk of the discovery: every place where a list is found,
    with [[*]] for each list crossed on the way. *)
Fixpoint list_paths (val : json) (path : string) : list string :=
  match val with
  | JObj fields =>
      flat_map (fun kv => list_paths (snd kv) (path ++ "." ++ fst kv)%string) fields
  | JArr items =>
      path :: flat_map (fun e => list_paths e (path ++ "[*]")%string) items
  | _ => []
  end.

(** Modelled from the spec: [json_paths_to_lists] of [jsonpath_utils], which
    is not in the source tree.  It returns the set of generalized paths,
    written from [$], at which a list is found; the set is kept as the list
    of its elements without repetition. *)
Definition json_paths_to_lists (val : json) : list string :=
  nodup string_dec (list_paths val "$").

(** A concrete traversal path: field names and list indices. *)
Inductive key : Type :=
| KName (name : string)
| KIndex (i : nat).

Definition key_text (k : key) : string :=
  match k with
  | KName name => "." ++ name
  | KIndex _ => "[*]"
  end%string.

(** Modelled from the spec: [convert_absolute_path_list_to_jsonpath] of
    [jsonpath_utils], which is not in the source tree.  Every index becomes
    [[*]] and every field name a dotted step. *)
Definition convert_absolute_path_list_to_jsonpath (p : list key) : string :=
  ("$" ++ String.concat "" (map key_text p))%string.

(** The node a concrete traversal path leads to. *)
Fixpoint node_at (document : json) (p : list key) : option json :=
  match p with
  | [] => Some document
  | KName name :: rest =>
      match document with
      | JObj fields =>
          match dict_get name fields with
          | Some v => node_at v rest
          | None => None
          end
      | _ => None
      end
  | KIndex i :: rest =>
      match document with
      | JArr items =>
          match nth_error items i with
          | Some v => node_at v rest
          | None => None
          end
      | _ => None
      end
  end.

Definition has_id (node : option json) : bool :=
  match node with
  | Some (JObj fields) =>
      match dict_get "id" fields with
      | Some _ => true
      | None => false
      end
  | _ => false
  end.

(** The scan from the end of [p] toward the root: [n] is the length of the
    prefix looked at. *)
Fixpoint nearest_id_prefix (document : json) (p : list key) (n : nat)
  : option (list key) :=
  match n with
  | O => None
  | S m =>
      if has_id (node_at document (firstn n p))
      then Some (firstn n p)
      else nearest_id_prefix document p m
  end.

(** Modelled from the spec: [format_jsonpath_with_id] of [jsonpath_utils],
    which is not in the source tree.  For [p = [k0, ..., kn]] the prefixes
    [[k0, ..., ki]] are scanned from the longest to the shortest for one
    whose Object has a field [id]; the caller passes the path alone, and the
    document whose Objects the spec consults is an argument here. *)
Definition format_jsonpath_with_id (document : json) (p : list key) : option string :=
  option_map (fun pre => convert_absolute_path_list_to_jsonpath (pre ++ [KName "id"]))
             (nearest_id_prefix document p (List.length p)).

(** ** The dangling-reference checks ([rpdvalidator/validate.py]) *)

(** The path lists the checks declare, in the order of the source. *)
Definition fluid_loop_id_jsonpaths : list string :=
  [ "$.ruleset_model_descriptions[*].fluid_loops[*].id";
    "$.ruleset_model_descriptions[*].fluid_loops[*].child_loops[*].id" ].

Definition fluid_reference_jsonpaths : list string :=
  [ "$.ruleset_model_descriptions[*].chillers[*].cooling_loop";
    "$.ruleset_model_descriptions[*].chillers[*].condensing_loop";
    "$.ruleset_model_descriptions[*].chillers[*].heat_recovery_loop";
    "$.ruleset_model_descriptions[*].buildings[*].building_segments[*].heating_ventilating_air_conditioning_systems[*].heating_system.hot_water_loop";
    "$.ruleset_model_descriptions[*].buildings[*].building_segments[*].heating_ventilating_air_conditioning_systems[*].heating_system.water_source_heat_pump_loop";
    "$.ruleset_model_descriptions[*].buildings[*].building_segments[*].heating_ventilating_air_conditioning_systems[*].cooling_system.chilled_water_loop";
    "$.ruleset_model_descriptions[*].buildings[*].building_segments[*].heating_ventilating_air_conditioning_systems[*].cooling_system.condenser_water_loop";
    "$.ruleset_model_descriptions[*].buildings[*].building_segments[*].zones[*].spaces[*].miscellaneous_equipment[*].energy_from_loop";
    "$.ruleset_model_descriptions[*].buildings[*].building_segments[*].zones[*].spaces[*].miscellaneous_equipment[*].remaining_fraction_to_loop";
    "$.ruleset_model_descriptions[*].buildings[*].building_segments[*].zones[*].terminals[*].cooling_from_loop";
    "$.ruleset_model_descriptions[*].buildings[*].building_segments[*].zones[*].terminals[*].heating_from_loop";
    "$.ruleset_model_descriptions[*].service_water_heating_equipment[*].hot_water_loop";
    "$.ruleset_model_descriptions[*].heat_rejections[*].loop";
    "$.ruleset_model_descriptions[*].boilers[*].loop";
    "$.ruleset_model_descriptions[*].service_water_heating_equipment[*].hot_water_loop";
    "$.ruleset_model_descriptions[*].external_fluid_sources[*].loop" ].

Definition zone_reference_jsonpaths : list string :=
  [ "$.ruleset_model_descriptions[*].buildings[*].elevators[*].motor_location_zone";
    "$.ruleset_model_descriptions[*].buildings[*].elevators[*].cab_location_zone";
    "$.ruleset_model_descriptions[*].buildings[*].refrigerated_cases[*].zone";
    "$.ruleset_model_descriptions[*].service_water_heating_equipment[*].compressor_zone";
    "$.ruleset_model_descriptions[*].service_water_heating_equipment[*].compressor_heat_rejection_zone";
    "$.ruleset_model_descriptions[*].buildings[*].building_segments[*].zones[*].zonal_exhaust_fan.motor_location_zone";
    "$.ruleset_model_descriptions[*].buildings[*].building_segments[*].zones[*].terminals[*].fan.motor_location_zone";
    "$.ruleset_model_descriptions[*].buildings[*].building_segments[*].heating_ventilating_air_conditioning_systems[*].fan_system.supply_fans[*].motor_location_zone";
    "$.ruleset_model_descriptions[*].buildings[*].building_segments[*].heating_ventilating_air_conditioning_systems[*].fan_system.return_fans[*].motor_location_zone";
    "$.ruleset_model_descriptions[*].buildings[*].building_segments[*].heating_ventilating_air_conditioning_systems[*].fan_system.relief_fans[*].motor_location_zone";
    "$.ruleset_model_descriptions[*].buildings[*].building_segments[*].heating_ventilating_air_conditioning_systems[*].fan_system.exhaust_fans[*].motor_location_zone";
    "$.ruleset_model_descriptions[*].service_water_heating_equipment[*].tank.location_zone";
    "$.ruleset_model_descriptions[*].service_water_heating_equipment[*].solar_thermal_systems[*].tank.location_zone";
    "$.ruleset_model_descriptions[*].service_water_heating_distribution_systems[*].tanks[*].location_zone";
    "$.ruleset_model_descriptions[*].buildings[*].building_segments[*].zones[*].surfaces[*].adjacent_zone";
    "$.ruleset_model_descriptions[*].buildings[*].building_segments[*].zones[*].transfer_airflow_source_zone";
    "$.ruleset_model_descriptions[*].service_water_heating_distribution_systems[*].service_water_piping[*].location_zone" ].

Definition schedule_reference_jsonpaths : list string :=
  [ "$.ruleset_model_descriptions[*].buildings[*].elevators[*].cab_motor_multiplier_schedule";
    "$.ruleset_model_descriptions[*].buildings[*].elevators[*].cab_ventilation_fan_multiplier_schedule";
    "$.ruleset_model_descriptions[*].buildings[*].elevators[*].cab_lighting_multiplier_schedule";
    "$.ruleset_model_descriptions[*].buildings[*].refrigerated_cases[*].power_multiplier_schedule";
    "$.ruleset_model_descriptions[*].buildings[*].exterior_lighting[*].multiplier_schedule";
    "$.ruleset_model_descriptions[*].buildings[*].building_segments[*].zones[*].infiltration.multiplier_schedule";
    "$.ruleset_model_descriptions[*].buildings[*].building_segments[*].zones[*].thermostat_cooling_setpoint_schedule";
    "$.ruleset_model_descriptions[*].buildings[*].building_segments[*].zones[*].thermostat_heating_setpoint_schedule";
    "$.ruleset_model_descriptions[*].buildings[*].building_segments[*].zones[*].minimum_humidity_setpoint_schedule";
    "$.ruleset_model_descriptions[*].buildings[*].building_segments[*].zones[*].maximum_humidity_setpoint_schedule";
    "$.ruleset_model_descriptions[*].buildings[*].building_segments[*].zones[*].exhaust_airflow_rate_multiplier_schedule";
    "$.ruleset_model_descriptions[*].buildings[*].building_segments[*].zones[*].spaces[*].occupant_multiplier_schedule";
    "$.ruleset_model_descriptions[*].buildings[*].building_segments[*].zones[*].spaces[*].interior_lighting[*].lighting_multiplier_schedule";
    "$.ruleset_model_descriptions[*].service_water_heating_distribution_systems[*].flow_multiplier_schedule";
    "$.ruleset_model_descriptions[*].service_water_heating_distribution_systems[*].entering_water_mains_temperature_schedule";
    "$.ruleset_model_descriptions[*].buildings[*].building_segments[*].zones[*].spaces[*].service_water_heating_uses[*].use_multiplier_schedule";
    "$.ruleset_model_descriptions[*].buildings[*].building_open_schedule";
    "$.ruleset_model_descriptions[*].buildings[*].building_segments[*].zones[*].terminals[*].minimum_outdoor_airflow_multiplier_schedule";
    "$.ruleset_model_descriptions[*].buildings[*].building_segments[*].zones[*].spaces[*].miscellaneous_equipment[*].multiplier_schedule";
    "$.ruleset_model_descriptions[*].fluid_loops[*].cooling_or_condensing_design_and_control.operation_schedule";
    "$.ruleset_model_descriptions[*].fluid_loops[*].heating_design_and_control.operation_schedule";
    "$.ruleset_model_descriptions[*].fluid_loops[*].child_loops[*].cooling_or_condensing_design_and_control.operation_schedule";
    "$.ruleset_model_descriptions[*].fluid_loops[*].child_loops[*].heating_design_and_control.operation_schedule";
    "$.ruleset_model_descriptions[*].heating_ventilation_air_conditioning_systems[*].fan_system.supply_air_temperature_reset_schedule";
    "$.ruleset_model_descriptions[*].heating_ventilation_air_conditioning_systems[*].fan_system.operating_schedule" ].

Definition fluid_loop_or_piping_id_jsonpaths : list string :=
  [ "$.ruleset_model_descriptions[*].fluid_loops[*].id";
    "$.ruleset_model_descriptions[*].service_water_heating_distribution_systems[*].service_water_piping[*].id";
    "$.ruleset_model_descriptions[*].fluid_loops[*].child_loops[*].id" ].

Definition service_water_heating_reference_jsonpaths : list string :=
  [ "$.ruleset_model_descriptions[*].buildings[*].building_segments[*].zones[*].spaces[*].service_water_heating_uses[*].served_by_distribution_system";
    "$.ruleset_model_descriptions[*].buildings[*].building_segments[*].zones[*].served_by_service_water_heating_system";
    "$.ruleset_model_descriptions[*].service_water_heating_equipment[*].distribution_system" ].

(** The single expressions the checks pass to [find_all]. *)
Definition zone_id_jsonpath : string :=
  "$.ruleset_model_descriptions[*].buildings[*].building_segments[*].zones[*].id".

Definition schedule_id_jsonpath : string :=
  "$.ruleset_model_descriptions[*].schedules[*].id".

Definition pump_loop_or_piping_jsonpath : string :=
  "$.ruleset_model_descriptions[*].pumps[*].loop_or_piping".

Definition service_water_heating_id_jsonpath : string :=
  "$.ruleset_model_descriptions[*].service_water_heating_distribution_systems[*].id".

Definition hvac_id_jsonpath : string :=
  "$.ruleset_model_descriptions[*].buildings[*].building_segments[*].heating_ventilating_air_conditioning_systems[*].id".

Definition served_by_hvac_jsonpath : string :=
  "$.ruleset_model_descriptions[*].buildings[*].building_segments[*].zones[*].terminals[*].served_by_heating_ventilating_air_conditioning_system".

(** The loop that ends each of the six checks,
    [for x in referenced: if x not in ids: mismatch_list.append(x)];
    [mismatch_list] is the list as it stands when the loop reaches
    [referenced]. *)
Fixpoint collect_mismatches (ids referenced mismatch_list : list json) : list json :=
  match referenced with
  | [] => mismatch_list
  | x :: rest =>
      collect_mismatches ids rest
        (if negb (py_in x ids) then mismatch_list ++ [x] else mismatch_list)
  end.

Definition check_fluid_loop_association (rpd : json) : result (list json) :=
  let mismatch_list := [] in
  fluid_loop_id_list <- find_all_by_jsonpaths fluid_loop_id_jsonpaths rpd ;;
  referenced_id_list <- find_all_by_jsonpaths fluid_reference_jsonpaths rpd ;;
  Ok (collect_mismatches fluid_loop_id_list referenced_id_list mismatch_list).

Definition check_zone_association (rpd : json) : result (list json) :=
  let mismatch_list := [] in
  zone_id_list <- find_all zone_id_jsonpath rpd ;;
  referenced_id_list <- find_all_by_jsonpaths zone_reference_jsonpaths rpd ;;
  Ok (collect_mismatches zone_id_list referenced_id_list mismatch_list).

Definition check_schedule_association (rpd : json) : result (list json) :=
  let mismatch_list := [] in
  schedule_id_list <- find_all schedule_id_jsonpath rpd ;;
  referenced_id_list <- find_all_by_jsonpaths schedule_reference_jsonpaths rpd ;;
  Ok (collect_mismatches schedule_id_list referenced_id_list mismatch_list).

Definition check_fluid_loop_or_piping_association (rpd : json) : result (list json) :=
  let mismatch_list := [] in
  fluid_loop_or_piping_id_list <-
    find_all_by_jsonpaths fluid_loop_or_piping_id_jsonpaths rpd ;;
  referenced_fluid_loop_or_piping_id_list <-
    find_all pump_loop_or_piping_jsonpath rpd ;;
  Ok (collect_mismatches fluid_loop_or_piping_id_list
        referenced_fluid_loop_or_piping_id_list mismatch_list).

Definition check_service_water_heating_association (rpd : json) : result (list json) :=
  let mismatch_list := [] in
  service_water_heating_id_list <- find_all service_water_heating_id_jsonpath rpd ;;
  referenced_service_water_heating_id_list <-
    find_all_by_jsonpaths service_water_heating_reference_jsonpaths rpd ;;
  Ok (collect_mismatches service_water_heating_id_list
        referenced_service_water_heating_id_list mismatch_list).

Definition check_hvac_association (rpd : json) : result (list json) :=
  let mismatch_list := [] in
  hvac_id_list <- find_all hvac_id_jsonpath rpd ;;
  served_by_hvac_id_list <- find_all served_by_hvac_jsonpath rpd ;;
  Ok (collect_mismatches hvac_id_list served_by_hvac_id_list mismatch_list).

(** ** The uniqueness check and the orchestrator *)

(** What [validate_references] returns: the dict with the keys [passed] and
    [error]; [error] is [None] when no entry was added. *)
Record report : Type := {
  passed : bool;
  error : option (list string)
}.

Section Validate.

(** The order in which [for list_path in paths] visits a Python set is not
    fixed by the language: it is some arrangement of the elements. *)
Variable set_order : list string -> list string.

(** [str(l)] of a list, which an f-string applies to [{l}]. *)
Variable py_str : list json -> string.

(** [f"ruleset_model_descriptions[{rmi_index}]{list_path[1:]}"] *)
Definition bad_path (rmi_index : nat) (list_path : string) : string :=
  ("ruleset_model_descriptions[" ++ str_of_nat rmi_index ++ "]" ++ py_tail list_path)%string.

(** The inner loop, [for list_path in paths], on one instance. *)
Fixpoint check_list_paths (rmi_index : nat) (rmi : json) (paths : list string)
  (bad_paths : list string) : result (list string) :=
  match paths with
  | [] => Ok bad_paths
  | list_path :: rest =>
      ids <- find_all (list_path ++ "[*].id")%string rmi ;;
      distinct <- py_set ids ;;
      if negb (Nat.eqb (List.length ids) (List.length distinct))
      then check_list_paths rmi_index rmi rest
             (bad_paths ++ [bad_path rmi_index list_path])
      else check_list_paths rmi_index rmi rest bad_paths
  end.

(** The outer loop, [for rmi_index, rmi in enumerate(...)]. *)
Fixpoint check_instances (rmi_index : nat) (instances : list json)
  (bad_paths : list string) : result (list string) :=
  match instances with
  | [] => Ok bad_paths
  | rmi :: rest =>
      let paths := json_paths_to_lists rmi in
      bad_paths' <- check_list_paths rmi_index rmi (set_order paths) bad_paths ;;
      check_instances (S rmi_index) rest bad_paths'
  end.

(** The list [bad_paths] at the end of the two loops. *)
Definition collect_bad_paths (rpd : json) : result (list string) :=
  ruleset_model_descriptions <- py_get rpd "ruleset_model_descriptions" (JArr []) ;;
  instances <- py_iter ruleset_model_descriptions ;;
  check_instances 0 instances [].

(** [f"Non-unique ids for paths: {'; '.join(bad_paths)}" if bad_paths else ""] *)
Definition error_msg (bad_paths : list string) : string :=
  match bad_paths with
  | [] => ""
  | _ => ("Non-unique ids for paths: " ++ String.concat "; " bad_paths)%string
  end.

Definition check_unique_ids_in_ruleset_model_descriptions (rpd : json) : result string :=
  bad_paths <- collect_bad_paths rpd ;;
  Ok (error_msg bad_paths).

(** Truth value of a [str] and of a [list]. *)
Definition truthy_str (s : string) : bool := negb (String.eqb s "").

Definition truthy {A : Type} (l : list A) : bool :=
  match l with
  | [] => false
  | _ => true
  end.

(** The f-strings of the six entries; [l] is the list they format. *)
Definition hvac_message (l : list json) : string :=
  ("Cannot find HVAC systems " ++ py_str l
   ++ " in the HeatingVentilationAirConditioningSystems data group.")%string.

Definition zone_message (l : list json) : string :=
  ("Cannot find zones " ++ py_str l ++ " in the Zone data group.")%string.

Definition fluid_loop_message (l : list json) : string :=
  ("Cannot find fluid loop " ++ py_str l ++ " in the FluidLoop data group.")%string.

Definition schedule_message (l : list json) : string :=
  ("Cannot find schedule " ++ py_str l ++ " in the Schedule data group.")%string.

Definition piping_message (l : list json) : string :=
  ("Cannot find piping " ++ py_str l
   ++ " in the FluidLoop or ServiceWaterHeatingDistributionSystems data group.")%string.

Definition service_water_heating_message (l : list json) : string :=
  ("Cannot find service water heating " ++ py_str l
   ++ " in the ServiceWaterHeatingDistributionSystems data group.")%string.

Definition validate_references (rpd : json) : result report :=
  let error := [] in
  unique_id_error <- check_unique_ids_in_ruleset_model_descriptions rpd ;;
  let passed := negb (truthy_str unique_id_error) in
  let error := if negb passed then error ++ [unique_id_error] else error in

  mismatch_hvac_errors <- check_hvac_association rpd ;;
  let passed := passed && negb (truthy mismatch_hvac_errors) in
  let error :=
    if truthy mismatch_hvac_errors
    then error ++ [hvac_message mismatch_hvac_errors]
    else error in

  mismatch_zone_errors <- check_zone_association rpd ;;
  let passed := passed && negb (truthy mismatch_zone_errors) in
  let error :=
    if truthy mismatch_zone_errors
    then error ++ [zone_message mismatch_zone_errors]
    else error in

  mismatch_fluid_loop_errors <- check_fluid_loop_association rpd ;;
  let passed := passed && negb (truthy mismatch_fluid_loop_errors) in
  let error :=
    if truthy mismatch_fluid_loop_errors
    then error ++ [fluid_loop_message mismatch_fluid_loop_errors]
    else error in

  mismatch_schedule_errors <- check_schedule_association rpd ;;
  let passed := passed && negb (truthy mismatch_schedule_errors) in
  let error :=
    if truthy mismatch_schedule_errors
    then error ++ [schedule_message mismatch_schedule_errors]
    else error in

  mismatch_fluid_loop_piping_errors <- check_fluid_loop_or_piping_association rpd ;;
  let passed := passed && negb (truthy mismatch_fluid_loop_piping_errors) in
  let error :=
    if truthy mismatch_fluid_loop_piping_errors
    then error ++ [piping_message mismatch_schedule_errors]
    else error in

  mismatch_service_water_heating_errors <- check_service_water_heating_association rpd ;;
  let passed := passed && negb (truthy mismatch_service_water_heating_errors) in
  let error :=
    if truthy mismatch_service_water_heating_errors
    then error ++ [service_water_heating_message mismatch_service_water_heating_errors]
    else error in

  Ok {| passed := passed; error := if truthy error then Some error else None |}.

End Validate.

(** ** Sample documents and renderings *)

(** [str(l)] on lists of values whose strings need no escaping. *)
Fixpoint py_repr (v : json) : string :=
  match v with
  | JNull => "None"
  | JBool true => "True"
  | JBool false => "False"
  | JInt n => NilZero.string_of_int (Z.to_int n)
  | JStr s => "'" ++ s ++ "'"
  | JArr items => "[" ++ String.concat ", " (map py_repr items) ++ "]"
  | JObj fields =>
      "{" ++ String.concat ", "
               (map (fun kv => "'" ++ fst kv ++ "': " ++ py_repr (snd kv)) fields) ++ "}"
  end%string.

Definition py_str_plain (l : list json) : string := py_repr (JArr l).

Definition id_order (paths : list string) : list string := paths.

(** HVAC systems [A] and [B]; three terminals served by [A], [C] and [C]. *)
Definition sample_hvac_rpd : json :=
  JObj [("id", JStr "rpd");
        ("ruleset_model_descriptions",
         JArr [JObj [("id", JStr "rmd");
                     ("buildings",
                      JArr [JObj [("id", JStr "b");
                                  ("building_segments",
                                   JArr [JObj [("id", JStr "seg");
                                               ("heating_ventilating_air_conditioning_systems",
                                                JArr [JObj [("id", JStr "A")];
                                                      JObj [("id", JStr "B")]]);
                                               ("zones",
                                                JArr [JObj [("id", JStr "z");
                                                            ("terminals",
                                                             JArr [JObj [("id", JStr "t1");
                                                                         ("served_by_heating_ventilating_air_conditioning_system", JStr "A")];
                                                                   JObj [("id", JStr "t2");
                                                                         ("served_by_heating_ventilating_air_conditioning_system", JStr "C")];
                                                                   JObj [("id", JStr "t3");
                                                                         ("served_by_heating_ventilating_air_conditioning_system", JStr "C")]])]])]])]])]])].

(** One pump on a loop that no fluid loop or piping declares; no schedule is
    referenced. *)
Definition sample_pump_rpd : json :=
  JObj [("id", JStr "rpd");
        ("ruleset_model_descriptions",
         JArr [JObj [("id", JStr "rmd");
                     ("pumps", JArr [JObj [("id", JStr "p1");
                                           ("loop_or_piping", JStr "L9")]])]])].

(** Three schedules of one instance share the id [s]. *)
Definition sample_dup_rpd : json :=
  JObj [("id", JStr "rpd");
        ("ruleset_model_descriptions",
         JArr [JObj [("id", JStr "rmd");
                     ("schedules", JArr [JObj [("id", JStr "s")];
                                         JObj [("id", JStr "s")];
                                         JObj [("id", JStr "s")]])]])].

(** A document without the field [ruleset_model_descriptions]. *)
Definition sample_bare_rpd : json := JObj [("id", JStr "rpd")].

(** One water heater on a loop [L7] that no fluid loop declares. *)
Definition sample_heater_rpd : json :=
  JObj [("id", JStr "rpd");
        ("ruleset_model_descriptions",
         JArr [JObj [("id", JStr "rmd");
                     ("fluid_loops", JArr [JObj [("id", JStr "L1")]]);
                     ("service_water_heating_equipment",
                      JArr [JObj [("id", JStr "wh1"); ("hot_water_loop", JStr "L7")];
                            JObj [("id", JStr "wh2"); ("hot_water_loop", JStr "L1")]])]])].

(** ** Vocabulary of the statements *)

(** The values an expression selects; a text that does not parse selects
    nothing. *)
Definition matches (expression : string) (document : json) : list json :=
  match find_all expression document with
  | Ok found => found
  | Raise _ => []
  end.

(** The values a list of expressions selects, expression after expression. *)
Definition all_matches (expressions : list string) (document : json) : list json :=
  flat_map (fun e => matches e document) expressions.

(** The referenced values that are not among the primary ids, in the order
    and with the repetitions of [referenced]. *)
Definition dangling (primary_ids referenced : list json) : list json :=
  filter (fun x => negb (py_in x primary_ids)) referenced.

(** Some value of [ids] is equal to a later one. *)
Fixpoint has_duplicate (ids : list json) : bool :=
  match ids with
  | [] => false
  | x :: rest => existsb (py_eq x) rest || has_duplicate rest
  end.

(** The entry a check adds to the error list: its message when it failed,
    nothing otherwise. *)
Definition entry_if (failed : bool) (message : string) : list string :=
  if failed then [message] else [].

(** The items of a Python [str] read as a sequence: its characters. *)
Definition py_items (s : string) : list string :=
  map (fun c => String c EmptyString) (list_ascii_of_string s).

(** The expression that [fluid_reference_jsonpaths] declares twice. *)
Definition hot_water_loop_jsonpath : string :=
  "$.ruleset_model_descriptions[*].service_water_heating_equipment[*].hot_water_loop".

(** How many of the checks failed. *)
Definition failing_count (flags : list bool) : nat :=
  List.length (filter (fun b => b) flags).

(** The number of items of [l] that are the value [v]. *)
Definition occurrences (v : json) (l : list json) : nat := count_occ json_eq_dec l v.

(** The instances the uniqueness check enumerates. *)
Definition model_instances (rpd : json) : result (list json) :=
  ruleset_model_descriptions <- py_get rpd "ruleset_model_descriptions" (JArr []) ;;
  py_iter ruleset_model_descriptions.

(** The ids under a list path of an instance. *)
Definition ids_at (rmi : json) (list_path : string) : list json :=
  matches (list_path ++ "[*].id")%string rmi.

(** The id query of a list path returns, and returns values that hash. *)
Definition readable (rmi : json) (list_path : string) : bool :=
  match find_all (list_path ++ "[*].id")%string rmi with
  | Ok ids => forallb hashable ids
  | Raise _ => false
  end.

(** The paths reported for the instances [instances], the first of which
    has the index [rmi_index]. *)
Fixpoint reported_from (set_order : list string -> list string) (rmi_index : nat)
  (instances : list json) : list string :=
  match instances with
  | [] => []
  | rmi :: rest =>
      map (bad_path rmi_index)
          (filter (fun list_path => has_duplicate (ids_at rmi list_path))
                  (set_order (json_paths_to_lists rmi)))
      ++ reported_from set_order (S rmi_index) rest
  end.

(** The reading of the uniqueness check as a function to a sequence of path
    texts: the items of the value it returns are the flagged paths. *)
Definition returns_path_sequence (set_order : list string -> list string) (rpd : json)
  : Prop :=
  exists bad_paths v,
    collect_bad_paths set_order rpd = Ok bad_paths
    /\ check_unique_ids_in_ruleset_model_descriptions set_order rpd = Ok v
    /\ py_items v = bad_paths.

Fixpoint no_bracket (s : string) : Prop :=
  match s with
  | EmptyString => True
  | String c rest => c <> "]"%char /\ no_bracket rest
  end.

(** ** Schema files and schema validation ([rpdvalidator/validate.py]) *)

Definition ends_with_slash (a : string) : bool :=
  match rev (list_ascii_of_string a) with
  | c :: _ => Ascii.eqb c "/"
  | [] => false
  end.

(** [os.path.join(a, b)] on POSIX paths: an absolute [b] replaces [a], and
    a separator is put between the two unless [a] is empty or ends with
    one. *)
Definition path_join (a b : string) : string :=
  match b with
  | String "/" _ => b
  | _ => if String.eqb a "" || ends_with_slash a
         then (a ++ b)%string
         else (a ++ "/" ++ b)%string
  end.

(** The dict [schema_paths] as its items; [file_dir] stands for
    [os.path.dirname(__file__)], which the run-time system supplies. *)
Definition get_schema_file_paths (file_dir schema_version : string)
  : list (string * string) :=
  [ ("SCHEMA_PATH",
     path_join file_dir
       ("schema_versions/" ++ schema_version ++ "/ASHRAE229.schema.json")%string);
    ("SCHEMA_901_ENUM_PATH",
     path_join file_dir
       ("schema_versions/" ++ schema_version
        ++ "/Enumerations2019ASHRAE901.schema.json")%string);
    ("SCHEMA_T24_ENUM_PATH",
     path_join file_dir
       ("schema_versions/" ++ schema_version
        ++ "/Enumerations2019T24.schema.json")%string);
    ("SCHEMA_RESNET_ENUM_PATH",
     path_join file_dir
       ("schema_versions/" ++ schema_version
        ++ "/EnumerationsRESNET.schema.json")%string);
    ("SCHEMA_OUTPUT_PATH",
     path_join file_dir
       ("schema_versions/" ++ schema_version
        ++ "/Output2019ASHRAE901.schema.json")%string) ].

Fixpoint str_take (n : nat) (s : string) : string :=
  match n, s with
  | S m, String c rest => String c (str_take m rest)
  | _, _ => EmptyString
  end.

Fixpoint str_drop (n : nat) (s : string) : string :=
  match n, s with
  | S m, String _ rest => str_drop m rest
  | _, _ => s
  end.

(** [s[:n]]. *)
Definition py_prefix (n : nat) (s : string) : string := str_take n s.

(** [s[-n:]] for [n > 0]: the last [n] characters, or all of [s] when it
    has fewer. *)
Definition py_suffix (n : nat) (s : string) : string :=
  str_drop (String.length s - n) s.

(** Truth value of a loaded value. *)
Definition py_truthy (v : json) : bool :=
  match v with
  | JNull => false
  | JBool b => b
  | JInt n => negb (Z.eqb n 0)
  | JStr s => negb (String.eqb s "")
  | JArr items => match items with [] => false | _ => true end
  | JObj fields => match fields with [] => false | _ => true end
  end.

Module Schema.

(** What the structural validator reports for one violation: the fields of
    the error object that [schema_validate] reads. *)
Record validation_error : Type := {
  message : string;
  absolute_path : list key
}.

(** What the calls to the [jsonschema] library inside the [try] come to:
    the list of the errors of [validator.iter_errors(rpd)], or an exception
    of the library, of which [text] is [str(error)]. *)
Inductive outcome : Type :=
| Reported (found : list validation_error)
| Failed (text : string).

(** The dict [schema_validate] returns, with the keys [passed] and
    [errors]. *)
Record report : Type := {
  passed : bool;
  errors : option (list string)
}.

Section SchemaValidate.

(** The validator built from the schema files of the chosen version. *)
Variable iter_errors : json -> outcome.

(** [format_jsonpath_with_id] as the source calls it, on the path alone;
    [None] is its falsy result. *)
Variable format_jsonpath_with_id : list key -> option string.

(** [str(v)] of a loaded value, which the f-string applies to
    [{parent_id}], and [str(error)] of a caught exception. *)
Variable py_format : json -> string.
Variable exn_text : exn -> string.

(** [(message[:20] + '..........' + message[-130:]) if len(message) > 160
    else message] *)
Definition truncated_message (message : string) : string :=
  if Nat.ltb 160 (String.length message)
  then (py_prefix 20 message ++ ".........." ++ py_suffix 130 message)%string
  else message.

(** The two assignments to [parent_id]: the matches of the id expression,
    or nothing when there is no expression, then the first match.  The
    empty text and the empty list of the source are both falsy and neither
    is formatted; both are [None] here. *)
Definition parent_id_of (rpd : json) (path : list key) : result (option json) :=
  let parent_id_path := format_jsonpath_with_id path in
  parent_id <-
    match parent_id_path with
    | Some expression =>
        if truthy_str expression then find_all expression rpd else Ok []
    | None => Ok []
    end ;;
  Ok (hd_error parent_id).

(** [f" Parent ID: {parent_id}" if parent_id else ""] *)
Definition parent_id_text (parent_id : option json) : string :=
  match parent_id with
  | Some v => if py_truthy v then (" Parent ID: " ++ py_format v)%string else ""
  | None => ""
  end.

(** The body of the loop over the errors: the entry for one error. *)
Definition error_message (rpd : json) (full_errors : bool) (error : validation_error)
  : result string :=
  let error_path := convert_absolute_path_list_to_jsonpath (absolute_path error) in
  parent_id <- parent_id_of rpd (absolute_path error) ;;
  if negb full_errors
  then Ok ((truncated_message (message error) ++ ". Path: " ++ error_path ++ ".")
           ++ parent_id_text parent_id)%string
  else Ok ((message error ++ ". Path: " ++ error_path ++ ".")
           ++ parent_id_text parent_id)%string.

(** [for error in errors: ... error_details.append(error_message)] *)
Fixpoint collect_error_details (rpd : json) (full_errors : bool)
  (found : list validation_error) (error_details : list string)
  : result (list string) :=
  match found with
  | [] => Ok error_details
  | error :: rest =>
      error_message <- error_message rpd full_errors error ;;
      collect_error_details rpd full_errors rest (error_details ++ [error_message])
  end.

(** [schema_validate] from the [try] on; the schema files are read before
    it and stand behind [iter_errors]. *)
Definition schema_validate (rpd : json) (full_errors : bool) : report :=
  match iter_errors rpd with
  | Failed text =>
      {| passed := false; errors := Some [("Unexpected error: " ++ text)%string] |}
  | Reported found =>
      if truthy found
      then match collect_error_details rpd full_errors found [] with
           | Ok error_details => {| passed := false; errors := Some error_details |}
           | Raise e =>
               {| passed := false;
                  errors := Some [("Unexpected error: " ++ exn_text e)%string] |}
           end
      else {| passed := true; errors := None |}
  end.

End SchemaValidate.

End Schema.

(** ** Further vocabulary *)

(** The instances the expressions of the checks range over: every
    expression starts with [$.ruleset_model_descriptions[*]]. *)
Definition instances_of (rpd : json) : list json :=
  matches "$.ruleset_model_descriptions[*]" rpd.

(** The expression starts with [$.ruleset_model_descriptions[*]]. *)
Definition rooted (expression : string) : bool :=
  match parse expression with
  | Some (Field name :: Wildcard :: _) => String.eqb name "ruleset_model_descriptions"
  | _ => false
  end.

(** The steps of an expression after its first two. *)
Definition tail_steps (expression : string) : list step :=
  match parse expression with
  | Some (_ :: _ :: rest) => rest
  | _ => []
  end.

(** The six dangling-reference checks. *)
Definition reference_checks : list (json -> result (list json)) :=
  [ check_hvac_association; check_zone_association; check_fluid_loop_association;
    check_schedule_association; check_fluid_loop_or_piping_association;
    check_service_water_heating_association ].

(** A second pump document, on another undeclared loop. *)
Definition sample_pump_rpd' : json :=
  JObj [("ruleset_model_descriptions",
         JArr [JObj [("id", JStr "rmd");
                     ("pumps", JArr [JObj [("id", JStr "p1");
                                           ("loop_or_piping", JStr "L8")]])]])].

(** The values a list of expressions selects below the instances. *)
Definition select (instances : list json) (expressions : list string) : list json :=
  flat_map (fun p => run_steps instances (tail_steps p)) expressions.

(** Each check with the expressions of its primary ids and the expressions
    of its references. *)
Definition check_table
  : list ((json -> result (list json)) * (list string * list string)) :=
  [ (check_hvac_association, ([hvac_id_jsonpath], [served_by_hvac_jsonpath]));
    (check_zone_association, ([zone_id_jsonpath], zone_reference_jsonpaths));
    (check_fluid_loop_association,
     (fluid_loop_id_jsonpaths, fluid_reference_jsonpaths));
    (check_schedule_association, ([schedule_id_jsonpath], schedule_reference_jsonpaths));
    (check_fluid_loop_or_piping_association,
     (fluid_loop_or_piping_id_jsonpaths, [pump_loop_or_piping_jsonpath]));
    (check_service_water_heating_association,
     ([service_water_heating_id_jsonpath], service_water_heating_reference_jsonpaths)) ].

(** The id expression [format_jsonpath_with_id] gives for a path, if any,
    parses. *)
Definition id_query_parses (format_with_id : list key -> option string)
  (path : list key) : bool :=
  match format_with_id path with
  | Some expression => well_formed expression
  | None => true
  end.

(** What [os.path.join] puts before a relative second argument. *)
Definition dir_prefix (file_dir : string) : string :=
  if String.eqb file_dir "" || ends_with_slash file_dir
  then file_dir
  else (file_dir ++ "/")%string.


(** An instance with a list [a] whose one element has a list as its id. *)
Definition sample_list_id_rpd : json :=
  JObj [("ruleset_model_descriptions",
         JArr [JObj [("a", JArr [JObj [("id", JArr [])]])]])].

(** A validator that reports two errors, and an id expression that keeps
    a concrete index. *)
Definition sample_iter_errors (rpd : json) : Schema.outcome :=
  Schema.Reported
    [ {| Schema.message := "'id' is a required property";
         Schema.absolute_path := [KName "ruleset_model_descriptions"; KIndex 0] |};
      {| Schema.message := "3 is not of type 'string'";
         Schema.absolute_path := [KName "id"] |} ].

Definition sample_format_with_id (path : list key) : option string :=
  Some "$.ruleset_model_descriptions[0].id"%string.

Definition sample_exn_text (e : exn) : string :=
  match e with
  | MalformedExpression => "malformed expression"
  | TypeError => "type error"
  | AttributeError => "attribute error"
  end.

(** The dicts of a value, at every depth, have pairwise distinct keys, as
    the dicts of a loaded document have. *)
Fixpoint distinct_keys (v : json) : Prop :=
  match v with
  | JArr items =>
      (fix all (l : list json) : Prop :=
         match l with
         | [] => True
         | x :: l' => distinct_keys x /\ all l'
         end) items
  | JObj fields =>
      NoDup (map fst fields)
      /\ (fix all (l : list (string * json)) : Prop :=
            match l with
            | [] => True
            | kv :: l' => distinct_keys (snd kv) /\ all l'
            end) fields
  | _ => True
  end.

(** ** The path evaluator *)

Lemma bind_ok {A B : Type} (a : A) (k : A -> result B) : bind (Ok a) k = k a.
Proof. reflexivity. Qed.

Lemma Ok_inj {A : Type} (a b : A) : Ok a = Ok b -> a = b.
Proof. intros H. now injection H. Qed.

Lemma find_all_well_formed (expression : string) (document : json) :
  well_formed expression = true ->
  find_all expression document = Ok (matches expression document).
Proof.
  unfold matches, find_all, well_formed.
  destruct (parse expression); [reflexivity | discriminate].
Qed.

Lemma find_all_by_jsonpaths_well_formed (expressions : list string) (document : json) :
  forallb well_formed expressions = true ->
  find_all_by_jsonpaths expressions document = Ok (all_matches expressions document).
Proof.
  induction expressions as [|e rest IH]; intros Hwf; [reflexivity|].
  apply andb_true_iff in Hwf as [He Hrest].
  change (find_all_by_jsonpaths (e :: rest) document)
    with (found <- find_all e document ;;
          others <- find_all_by_jsonpaths rest document ;; Ok (found ++ others)).
  rewrite (find_all_well_formed _ _ He), bind_ok, (IH Hrest), bind_ok.
  reflexivity.
Qed.

Lemma run_steps_app (steps : list step) (l1 l2 : list json) :
  run_steps (l1 ++ l2) steps = run_steps l1 steps ++ run_steps l2 steps.
Proof.
  revert l1 l2.
  induction steps as [|st steps IH]; intros l1 l2; [reflexivity|].
  unfold run_steps in *. simpl.
  rewrite flat_map_app. apply IH.
Qed.

Lemma run_steps_nil (steps : list step) : run_steps [] steps = [].
Proof.
  induction steps as [|st steps IH]; [reflexivity|].
  unfold run_steps in *. simpl. exact IH.
Qed.


(** ** The dangling-reference loop *)

Lemma collect_mismatches_filter (ids referenced mismatch_list : list json) :
  collect_mismatches ids referenced mismatch_list
  = mismatch_list ++ dangling ids referenced.
Proof.
  revert mismatch_list.
  induction referenced as [|x rest IH]; intros acc; simpl.
  - now rewrite app_nil_r.
  - rewrite IH. destruct (py_in x ids); simpl; [reflexivity|].
    now rewrite <- app_assoc.
Qed.

Lemma dangling_app (ids l1 l2 : list json) :
  dangling ids (l1 ++ l2) = dangling ids l1 ++ dangling ids l2.
Proof. apply filter_app. Qed.

Ltac run_check :=
  repeat first
    [ rewrite find_all_well_formed by (vm_compute; reflexivity)
    | rewrite find_all_by_jsonpaths_well_formed by (vm_compute; reflexivity) ];
  rewrite !bind_ok, collect_mismatches_filter.

Lemma check_hvac_association_ok (rpd : json) :
  check_hvac_association rpd
  = Ok (dangling (matches hvac_id_jsonpath rpd) (matches served_by_hvac_jsonpath rpd)).
Proof. unfold check_hvac_association. run_check. reflexivity. Qed.

Lemma check_zone_association_ok (rpd : json) :
  check_zone_association rpd
  = Ok (dangling (matches zone_id_jsonpath rpd)
                 (all_matches zone_reference_jsonpaths rpd)).
Proof. unfold check_zone_association. run_check. reflexivity. Qed.

Lemma check_fluid_loop_association_ok (rpd : json) :
  check_fluid_loop_association rpd
  = Ok (dangling (all_matches fluid_loop_id_jsonpaths rpd)
                 (all_matches fluid_reference_jsonpaths rpd)).
Proof. unfold check_fluid_loop_association. run_check. reflexivity. Qed.

Lemma check_schedule_association_ok (rpd : json) :
  check_schedule_association rpd
  = Ok (dangling (matches schedule_id_jsonpath rpd)
                 (all_matches schedule_reference_jsonpaths rpd)).
Proof. unfold check_schedule_association. run_check. reflexivity. Qed.

Lemma check_fluid_loop_or_piping_association_ok (rpd : json) :
  check_fluid_loop_or_piping_association rpd
  = Ok (dangling (all_matches fluid_loop_or_piping_id_jsonpaths rpd)
                 (matches pump_loop_or_piping_jsonpath rpd)).
Proof. unfold check_fluid_loop_or_piping_association. run_check. reflexivity. Qed.

Lemma check_service_water_heating_association_ok (rpd : json) :
  check_service_water_heating_association rpd
  = Ok (dangling (matches service_water_heating_id_jsonpath rpd)
                 (all_matches service_water_heating_reference_jsonpaths rpd)).
Proof. unfold check_service_water_heating_association. run_check. reflexivity. Qed.

(** C1. Each of the six dangling-reference checks returns the values its
    reference expressions select, in the declaration order of the
    expressions, without those that are among the primary ids; order and
    repetitions are kept.  With the primary ids A, B and the references
    A, C, C the loop returns C, C, and so does the HVAC check on a document
    with these ids.  Every expression the checks declare is well formed, so
    the values selected are the values [find_all] returns. *)
Theorem dangling_reference_checks (rpd : json) :
  check_hvac_association rpd
  = Ok (dangling (matches hvac_id_jsonpath rpd) (matches served_by_hvac_jsonpath rpd))
  /\ check_zone_association rpd
     = Ok (dangling (matches zone_id_jsonpath rpd)
                    (all_matches zone_reference_jsonpaths rpd))
  /\ check_fluid_loop_association rpd
     = Ok (dangling (all_matches fluid_loop_id_jsonpaths rpd)
                    (all_matches fluid_reference_jsonpaths rpd))
  /\ check_schedule_association rpd
     = Ok (dangling (matches schedule_id_jsonpath rpd)
                    (all_matches schedule_reference_jsonpaths rpd))
  /\ check_fluid_loop_or_piping_association rpd
     = Ok (dangling (all_matches fluid_loop_or_piping_id_jsonpaths rpd)
                    (matches pump_loop_or_piping_jsonpath rpd))
  /\ check_service_water_heating_association rpd
     = Ok (dangling (matches service_water_heating_id_jsonpath rpd)
                    (all_matches service_water_heating_reference_jsonpaths rpd))
  /\ collect_mismatches [JStr "A"; JStr "B"] [JStr "A"; JStr "C"; JStr "C"] []
     = [JStr "C"; JStr "C"]
  /\ matches hvac_id_jsonpath sample_hvac_rpd = [JStr "A"; JStr "B"]
  /\ matches served_by_hvac_jsonpath sample_hvac_rpd = [JStr "A"; JStr "C"; JStr "C"]
  /\ check_hvac_association sample_hvac_rpd = Ok [JStr "C"; JStr "C"]
  /\ forallb well_formed
       ([hvac_id_jsonpath; served_by_hvac_jsonpath; zone_id_jsonpath;
         schedule_id_jsonpath; pump_loop_or_piping_jsonpath;
         service_water_heating_id_jsonpath]
        ++ zone_reference_jsonpaths ++ fluid_loop_id_jsonpaths
        ++ fluid_reference_jsonpaths ++ schedule_reference_jsonpaths
        ++ fluid_loop_or_piping_id_jsonpaths
        ++ service_water_heating_reference_jsonpaths) = true.
Proof.
  split; [apply check_hvac_association_ok|].
  split; [apply check_zone_association_ok|].
  split; [apply check_fluid_loop_association_ok|].
  split; [apply check_schedule_association_ok|].
  split; [apply check_fluid_loop_or_piping_association_ok|].
  split; [apply check_service_water_heating_association_ok|].
  repeat split; vm_compute; reflexivity.
Qed.

(** C6. [find_all_by_jsonpaths] returns the results of [find_all] on each
    expression joined in the given order, nothing reordered and nothing
    dropped; for two expressions it is the result of the first followed by
    the result of the second. *)
Theorem find_all_by_jsonpaths_concatenates (document : json) :
  (forall (expressions : list string) (found : list (list json)),
      Forall2 (fun e r => find_all e document = Ok r) expressions found ->
      find_all_by_jsonpaths expressions document = Ok (List.concat found))
  /\ (forall (E1 E2 : string) (r1 r2 : list json),
         find_all E1 document = Ok r1 ->
         find_all E2 document = Ok r2 ->
         find_all_by_jsonpaths [E1; E2] document = Ok (r1 ++ r2)).
Proof.
  assert (general : forall expressions found,
             Forall2 (fun e r => find_all e document = Ok r) expressions found ->
             find_all_by_jsonpaths expressions document = Ok (List.concat found)).
  { intros expressions found H.
    induction H as [|e r es rs He _ IH]; [reflexivity|].
    cbn [find_all_by_jsonpaths List.concat].
    now rewrite He, bind_ok, IH, bind_ok. }
  split; [exact general|].
  intros E1 E2 r1 r2 H1 H2.
  rewrite (general [E1; E2] [r1; r2]) by (repeat constructor; assumption).
  simpl. now rewrite app_nil_r.
Qed.

(** C7. On a well-formed expression [find_all] returns for every document.
    The one failure it has is [MalformedExpression]; it is decided by the
    text alone, so the same text fails on every document.  A field step on
    an Object without the field, or on a node that is no Object, and a
    wildcard on a node that is no Array select nothing, and a node that
    selects nothing leaves the results of the other nodes of the working
    set as they are. *)
Theorem find_all_fails_only_at_parse (expression : string) :
  (well_formed expression = true ->
   forall document, find_all expression document = Ok (matches expression document))
  /\ (forall document e,
         find_all expression document = Raise e ->
         e = MalformedExpression /\ parse expression = None
         /\ forall other, find_all expression other = Raise MalformedExpression)
  /\ (forall name fields,
         dict_get name fields = None -> apply_step (Field name) (JObj fields) = [])
  /\ (forall name node,
         (forall fields, node <> JObj fields) -> apply_step (Field name) node = [])
  /\ (forall node,
         (forall items, node <> JArr items) -> apply_step Wildcard node = [])
  /\ (forall st steps before node after,
         apply_step st node = [] ->
         run_steps (before ++ node :: after) (st :: steps)
         = run_steps before (st :: steps) ++ run_steps after (st :: steps)).
Proof.
  split; [|split; [|split; [|split; [|split]]]].
  - intros Hwf document. now apply find_all_well_formed.
  - unfold find_all. intros document e H.
    destruct (parse expression) eqn:Hp; [discriminate|].
    injection H as <-. repeat split.
  - intros name fields H. simpl. now rewrite H.
  - intros name [| | | | |fields] H; try reflexivity. now destruct (H fields).
  - intros [| | | |items|] H; try reflexivity. now destruct (H items).
  - intros st steps before node after H.
    rewrite run_steps_app.
    change (node :: after) with ([node] ++ after).
    rewrite run_steps_app. f_equal.
    replace (run_steps [node] (st :: steps)) with (@nil json); [reflexivity|].
    unfold run_steps. simpl. rewrite H. simpl. symmetry. apply run_steps_nil.
Qed.


(** C10. On a document dict without the field [ruleset_model_descriptions]
    the lookup gives the default, the empty list, no instance is visited
    and the uniqueness check returns the empty text; it does not raise. *)
Theorem check_unique_ids_without_instances
  (set_order : list string -> list string) (fields : list (string * json)) :
  dict_get "ruleset_model_descriptions" fields = None ->
  py_get (JObj fields) "ruleset_model_descriptions" (JArr []) = Ok (JArr [])
  /\ collect_bad_paths set_order (JObj fields) = Ok []
  /\ check_unique_ids_in_ruleset_model_descriptions set_order (JObj fields) = Ok "".
Proof.
  intros H.
  unfold check_unique_ids_in_ruleset_model_descriptions, collect_bad_paths, py_get.
  rewrite H. repeat split.
Qed.

(** ** The doubled reference of the fluid-loop check *)

Lemma occurrences_app (v : json) (l1 l2 : list json) :
  occurrences v (l1 ++ l2) = occurrences v l1 + occurrences v l2.
Proof. apply count_occ_app. Qed.

Lemma occurrences_dangling (v : json) (ids l : list json) :
  py_in v ids = false ->
  occurrences v (dangling ids l) = occurrences v l.
Proof.
  intros Hv. unfold occurrences, dangling.
  induction l as [|x l IH]; [reflexivity|].
  simpl. destruct (json_eq_dec x v) as [->|Hne].
  - rewrite Hv. simpl. destruct (json_eq_dec v v); [now rewrite IH | contradiction].
  - destruct (py_in x ids); simpl; [exact IH|].
    destruct (json_eq_dec x v); [contradiction | exact IH].
Qed.

Lemma all_matches_app (l1 l2 : list string) (document : json) :
  all_matches (l1 ++ l2) document = all_matches l1 document ++ all_matches l2 document.
Proof. apply flat_map_app. Qed.

Lemma all_matches_one (e : string) (document : json) :
  all_matches [e] document = matches e document.
Proof. unfold all_matches. simpl. apply app_nil_r. Qed.

(** C9. [fluid_reference_jsonpaths] declares the hot-water-loop expression
    of the service water heating equipment at two places, so the list the
    fluid-loop check returns holds the dangling values of that expression
    twice, and a value that is no fluid-loop id occurs in it twice for each
    of its occurrences under that expression, next to its occurrences under
    the other expressions. *)
Theorem hot_water_loop_reported_twice (rpd : json) :
  let ids := all_matches fluid_loop_id_jsonpaths rpd in
  let heaters := matches hot_water_loop_jsonpath rpd in
  let before := all_matches (firstn 11 fluid_reference_jsonpaths) rpd in
  let between := all_matches (firstn 2 (skipn 12 fluid_reference_jsonpaths)) rpd in
  let after := all_matches (skipn 15 fluid_reference_jsonpaths) rpd in
  nth_error fluid_reference_jsonpaths 11 = Some hot_water_loop_jsonpath
  /\ nth_error fluid_reference_jsonpaths 14 = Some hot_water_loop_jsonpath
  /\ check_fluid_loop_association rpd
     = Ok (dangling ids before ++ dangling ids heaters ++ dangling ids between
           ++ dangling ids heaters ++ dangling ids after)
  /\ (forall mismatch_list v,
         check_fluid_loop_association rpd = Ok mismatch_list ->
         py_in v ids = false ->
         occurrences v mismatch_list
         = 2 * occurrences v heaters + occurrences v (before ++ between ++ after))
  /\ check_fluid_loop_association sample_heater_rpd = Ok [JStr "L7"; JStr "L7"].
Proof.
  intros ids heaters before between after.
  assert (Hsplit : check_fluid_loop_association rpd
                   = Ok (dangling ids before ++ dangling ids heaters
                         ++ dangling ids between
                         ++ dangling ids heaters ++ dangling ids after)).
  { rewrite check_fluid_loop_association_ok. fold ids.
    change fluid_reference_jsonpaths
      with (firstn 11 fluid_reference_jsonpaths
            ++ [hot_water_loop_jsonpath]
            ++ firstn 2 (skipn 12 fluid_reference_jsonpaths)
            ++ [hot_water_loop_jsonpath]
            ++ skipn 15 fluid_reference_jsonpaths).
    rewrite !all_matches_app, !all_matches_one, !dangling_app.
    reflexivity. }
  split; [reflexivity|]. split; [reflexivity|]. split; [exact Hsplit|].
  split; [|reflexivity].
  intros mismatch_list v Hcheck Hv.
  rewrite Hsplit in Hcheck. injection Hcheck as <-.
  rewrite !occurrences_app, !occurrences_dangling by exact Hv.
  lia.
Qed.

(** ** The orchestrator *)

Lemma append_entry (error : list string) (failed : bool) (message : string) :
  (if failed then error ++ [message] else error) = error ++ entry_if failed message.
Proof. destruct failed; simpl; [reflexivity | now rewrite app_nil_r]. Qed.

Lemma truthy_false {A : Type} (l : list A) : truthy l = false <-> l = [].
Proof. destruct l; simpl; split; intros H; try reflexivity; discriminate. Qed.

Lemma truthy_str_false (s : string) : truthy_str s = false <-> s = "".
Proof. destruct s; simpl; split; intros H; try reflexivity; discriminate. Qed.

Lemma length_entry_if (failed : bool) (message : string) :
  List.length (entry_if failed message) = if failed then 1 else 0.
Proof. now destruct failed. Qed.

(** The report in closed form, once the uniqueness check has returned. *)
Lemma validate_references_report
  (set_order : list string -> list string) (py_str : list json -> string)
  (rpd : json) (u : string) :
  check_unique_ids_in_ruleset_model_descriptions set_order rpd = Ok u ->
  let h := dangling (matches hvac_id_jsonpath rpd) (matches served_by_hvac_jsonpath rpd) in
  let z := dangling (matches zone_id_jsonpath rpd)
                    (all_matches zone_reference_jsonpaths rpd) in
  let f := dangling (all_matches fluid_loop_id_jsonpaths rpd)
                    (all_matches fluid_reference_jsonpaths rpd) in
  let s := dangling (matches schedule_id_jsonpath rpd)
                    (all_matches schedule_reference_jsonpaths rpd) in
  let p := dangling (all_matches fluid_loop_or_piping_id_jsonpaths rpd)
                    (matches pump_loop_or_piping_jsonpath rpd) in
  let w := dangling (matches service_water_heating_id_jsonpath rpd)
                    (all_matches service_water_heating_reference_jsonpaths rpd) in
  let errors :=
    entry_if (truthy_str u) u
    ++ entry_if (truthy h) (hvac_message py_str h)
    ++ entry_if (truthy z) (zone_message py_str z)
    ++ entry_if (truthy f) (fluid_loop_message py_str f)
    ++ entry_if (truthy s) (schedule_message py_str s)
    ++ entry_if (truthy p) (piping_message py_str s)
    ++ entry_if (truthy w) (service_water_heating_message py_str w) in
  validate_references set_order py_str rpd
  = Ok {| passed := negb (truthy_str u) && negb (truthy h) && negb (truthy z)
                    && negb (truthy f) && negb (truthy s) && negb (truthy p)
                    && negb (truthy w);
          error := if truthy errors then Some errors else None |}.
Proof.
  intros Hu h z f s p w errors.
  unfold validate_references.
  rewrite Hu, check_hvac_association_ok, check_zone_association_ok,
    check_fluid_loop_association_ok, check_schedule_association_ok,
    check_fluid_loop_or_piping_association_ok,
    check_service_water_heating_association_ok.
  rewrite !bind_ok. cbv zeta.
  fold h z f s p w.
  rewrite negb_involutive, !append_entry, <- !app_assoc.
  reflexivity.
Qed.

(** C4. Whenever [validate_references] returns, [passed] is true exactly
    when the uniqueness check returned the empty text and each of the six
    dangling-reference checks returned the empty list; the error list is
    absent exactly when [passed] is true, and otherwise it holds one entry
    for each check that failed, in the order of the checks.  It raises only
    when the uniqueness check raises. *)
Theorem validate_references_aggregates
  (set_order : list string -> list string) (py_str : list json -> string) (rpd : json) :
  match validate_references set_order py_str rpd with
  | Raise e => check_unique_ids_in_ruleset_model_descriptions set_order rpd = Raise e
  | Ok r =>
      exists u h z f s p w,
        check_unique_ids_in_ruleset_model_descriptions set_order rpd = Ok u
        /\ check_hvac_association rpd = Ok h
        /\ check_zone_association rpd = Ok z
        /\ check_fluid_loop_association rpd = Ok f
        /\ check_schedule_association rpd = Ok s
        /\ check_fluid_loop_or_piping_association rpd = Ok p
        /\ check_service_water_heating_association rpd = Ok w
        /\ (passed r = true <->
            u = "" /\ h = [] /\ z = [] /\ f = [] /\ s = [] /\ p = [] /\ w = [])
        /\ (error r = None <-> passed r = true)
        /\ (forall errors,
               error r = Some errors ->
               errors
               = entry_if (truthy_str u) u
                 ++ entry_if (truthy h) (hvac_message py_str h)
                 ++ entry_if (truthy z) (zone_message py_str z)
                 ++ entry_if (truthy f) (fluid_loop_message py_str f)
                 ++ entry_if (truthy s) (schedule_message py_str s)
                 ++ entry_if (truthy p) (piping_message py_str s)
                 ++ entry_if (truthy w) (service_water_heating_message py_str w)
               /\ List.length errors
                  = failing_count [truthy_str u; truthy h; truthy z; truthy f;
                                   truthy s; truthy p; truthy w])
  end.
Proof.
  destruct (check_unique_ids_in_ruleset_model_descriptions set_order rpd) as [u|e] eqn:Hu.
  2:{ unfold validate_references. rewrite Hu. reflexivity. }
  rewrite (validate_references_report set_order py_str rpd Hu). cbv zeta.
  do 7 eexists.
  split; [reflexivity|].
  split; [apply check_hvac_association_ok|].
  split; [apply check_zone_association_ok|].
  split; [apply check_fluid_loop_association_ok|].
  split; [apply check_schedule_association_ok|].
  split; [apply check_fluid_loop_or_piping_association_ok|].
  split; [apply check_service_water_heating_association_ok|].
  generalize (dangling (matches hvac_id_jsonpath rpd) (matches served_by_hvac_jsonpath rpd)).
  generalize (dangling (matches zone_id_jsonpath rpd)
                       (all_matches zone_reference_jsonpaths rpd)).
  generalize (dangling (all_matches fluid_loop_id_jsonpaths rpd)
                       (all_matches fluid_reference_jsonpaths rpd)).
  generalize (dangling (matches schedule_id_jsonpath rpd)
                       (all_matches schedule_reference_jsonpaths rpd)).
  generalize (dangling (all_matches fluid_loop_or_piping_id_jsonpaths rpd)
                       (matches pump_loop_or_piping_jsonpath rpd)).
  generalize (dangling (matches service_water_heating_id_jsonpath rpd)
                       (all_matches service_water_heating_reference_jsonpaths rpd)).
  intros w p s f z h.
  cbn [passed error].
  split; [|split].
  - rewrite !andb_true_iff, !negb_true_iff, truthy_str_false, !truthy_false. tauto.
  - destruct (truthy_str u), (truthy h), (truthy z), (truthy f), (truthy s),
      (truthy p), (truthy w); simpl; split; intros H; (discriminate || reflexivity).
  - intros errors Herr.
    match type of Herr with
    | (if truthy ?l then _ else _) = _ => destruct (truthy l) eqn:Ht; [|discriminate]
    end.
    injection Herr as <-. split; [reflexivity|].
    rewrite !length_app, !length_entry_if. unfold failing_count.
    destruct (truthy_str u), (truthy h), (truthy z), (truthy f), (truthy s),
      (truthy p), (truthy w); reflexivity.
Qed.

(** C5. When the fluid-loop-or-piping check returns a list that is not
    empty, [validate_references] reports [passed] false whatever the other
    checks return, and the entry it adds for that check formats the list the
    schedule check returned. *)
Theorem piping_decision_and_message
  (set_order : list string -> list string) (py_str : list json -> string)
  (rpd : json) (p : list json) (r : report) :
  check_fluid_loop_or_piping_association rpd = Ok p ->
  p <> [] ->
  validate_references set_order py_str rpd = Ok r ->
  passed r = false
  /\ exists s errors,
       check_schedule_association rpd = Ok s
       /\ error r = Some errors
       /\ In (piping_message py_str s) errors.
Proof.
  intros Hp Hne Hr.
  destruct (check_unique_ids_in_ruleset_model_descriptions set_order rpd) as [u|e] eqn:Hu.
  2:{ unfold validate_references in Hr. rewrite Hu in Hr. discriminate. }
  rewrite (validate_references_report set_order py_str rpd Hu) in Hr. cbv zeta in Hr.
  rewrite check_fluid_loop_or_piping_association_ok in Hp. apply Ok_inj in Hp.
  rewrite Hp in Hr.
  assert (Ht : truthy p = true) by (destruct p; [contradiction | reflexivity]).
  rewrite Ht in Hr. apply Ok_inj in Hr. subst r. cbn [passed error].
  split.
  - rewrite !andb_false_iff. simpl. tauto.
  - eexists. eexists. split; [apply check_schedule_association_ok|].
    match goal with
    | |- (if truthy ?l then _ else _) = _ /\ _ =>
        assert (Hl : truthy l = true)
    end.
    { apply not_false_iff_true. intros Hf. apply truthy_false in Hf.
      do 5 (apply app_eq_nil in Hf; destruct Hf as [_ Hf]).
      apply app_eq_nil in Hf as [Hf _]. discriminate. }
    rewrite Hl. split; [reflexivity|].
    rewrite !in_app_iff. do 5 right. left. simpl. left. reflexivity.
Qed.

(** ** Sets of ids *)

Lemma existsb_orb {A : Type} (f g : A -> bool) (l : list A) :
  existsb (fun x => f x || g x) l = existsb f l || existsb g l.
Proof.
  induction l as [|x l IH]; [reflexivity|].
  simpl. rewrite IH. destruct (f x), (g x), (existsb f l); reflexivity.
Qed.

Lemma existsb_pointwise {A : Type} (f g : A -> bool) (l : list A) :
  (forall x, f x = g x) -> existsb f l = existsb g l.
Proof.
  intros H. induction l as [|x l IH]; [reflexivity|].
  simpl. now rewrite H, IH.
Qed.

Lemma py_in_snoc (b x : json) (seen : list json) :
  py_in b (seen ++ [x]) = py_in b seen || py_eq x b.
Proof.
  unfold py_in. rewrite existsb_app. simpl. now rewrite orb_false_r.
Qed.

Lemma py_set_from_length (ids seen : list json) :
  forallb hashable ids = true ->
  exists s, py_set_from seen ids = Ok s
            /\ List.length s <= List.length seen + List.length ids
            /\ (List.length s = List.length seen + List.length ids
                <-> existsb (fun b => py_in b seen) ids || has_duplicate ids = false).
Proof.
  revert seen.
  induction ids as [|x rest IH]; intros seen Hh.
  - exists seen. simpl. repeat split; lia.
  - simpl in Hh. apply andb_true_iff in Hh as [Hx Hrest].
    cbn [py_set_from]. rewrite Hx.
    destruct (py_in x seen) eqn:Hin.
    + destruct (IH seen Hrest) as (s & Hs & Hle & _).
      exists s. split; [exact Hs|]. simpl. rewrite Hin. simpl.
      split; [lia|]. split; [lia | discriminate].
    + destruct (IH (seen ++ [x]) Hrest) as (s & Hs & Hle & Hiff).
      exists s. split; [exact Hs|].
      rewrite length_app in Hle, Hiff. simpl in Hle, Hiff.
      split; [simpl; lia|].
      replace (existsb (fun b => py_in b seen) (x :: rest) || has_duplicate (x :: rest))
        with (existsb (fun b => py_in b (seen ++ [x])) rest || has_duplicate rest).
      * rewrite <- Hiff. simpl. lia.
      * simpl. rewrite Hin. simpl.
        rewrite (existsb_pointwise _ (fun b => py_in b seen || py_eq x b))
          by (intros b; apply py_in_snoc).
        rewrite existsb_orb.
        destruct (existsb (fun b => py_in b seen) rest), (existsb (py_eq x) rest),
          (has_duplicate rest); reflexivity.
Qed.

Lemma py_set_length (ids : list json) :
  forallb hashable ids = true ->
  exists s, py_set ids = Ok s
            /\ Nat.eqb (List.length ids) (List.length s) = negb (has_duplicate ids).
Proof.
  intros Hh. destruct (py_set_from_length ids [] Hh) as (s & Hs & Hle & Hiff).
  exists s. split; [exact Hs|].
  assert (Hnone : forall l : list json, existsb (fun _ => false) l = false)
    by (induction l; simpl; auto).
  simpl in Hle, Hiff. rewrite Hnone in Hiff. simpl in Hiff.
  destruct (has_duplicate ids) eqn:Hd; simpl.
  - apply Nat.eqb_neq. intros E. symmetry in E. apply Hiff in E. congruence.
  - apply Nat.eqb_eq. symmetry. now apply Hiff.
Qed.

(** ** The two loops of the uniqueness check *)

Lemma readable_ids (rmi : json) (list_path : string) :
  readable rmi list_path = true ->
  find_all (list_path ++ "[*].id")%string rmi = Ok (ids_at rmi list_path)
  /\ forallb hashable (ids_at rmi list_path) = true.
Proof.
  unfold readable, ids_at, matches.
  destruct (find_all (list_path ++ "[*].id")%string rmi); [|discriminate].
  intros H. split; [reflexivity | exact H].
Qed.

Lemma check_list_paths_spec (rmi_index : nat) (rmi : json) (paths bad_paths : list string) :
  forallb (readable rmi) paths = true ->
  check_list_paths rmi_index rmi paths bad_paths
  = Ok (bad_paths
        ++ map (bad_path rmi_index)
               (filter (fun list_path => has_duplicate (ids_at rmi list_path)) paths)).
Proof.
  revert bad_paths.
  induction paths as [|lp rest IH]; intros bad_paths Hr.
  - simpl. now rewrite app_nil_r.
  - simpl in Hr. apply andb_true_iff in Hr as [Hlp Hrest].
    destruct (readable_ids _ _ Hlp) as [Hfind Hhash].
    destruct (py_set_length _ Hhash) as (s & Hs & Hlen).
    cbn [check_list_paths filter]. rewrite Hfind, bind_ok, Hs, bind_ok, Hlen.
    rewrite negb_involutive.
    destruct (has_duplicate (ids_at rmi lp)).
    + rewrite (IH _ Hrest). cbn [map]. now rewrite <- app_assoc.
    + apply (IH _ Hrest).
Qed.

Lemma check_instances_spec (set_order : list string -> list string)
  (instances : list json) (rmi_index : nat) (bad_paths : list string) :
  forallb (fun rmi => forallb (readable rmi) (set_order (json_paths_to_lists rmi)))
          instances = true ->
  check_instances set_order rmi_index instances bad_paths
  = Ok (bad_paths ++ reported_from set_order rmi_index instances).
Proof.
  revert rmi_index bad_paths.
  induction instances as [|rmi rest IH]; intros rmi_index bad_paths Hr.
  - simpl. now rewrite app_nil_r.
  - simpl in Hr. apply andb_true_iff in Hr as [Hrmi Hrest].
    cbn [check_instances reported_from]. cbv zeta.
    rewrite (check_list_paths_spec _ _ _ _ Hrmi), bind_ok, (IH _ _ Hrest).
    now rewrite <- app_assoc.
Qed.

(** ** Texts of the reported paths *)

Lemma string_append_assoc (s1 s2 s3 : string) :
  ((s1 ++ s2) ++ s3 = s1 ++ (s2 ++ s3))%string.
Proof. induction s1 as [|c s1 IH]; simpl; [reflexivity | now rewrite IH]. Qed.

Lemma string_append_nil_r (s : string) : (s ++ "")%string = s.
Proof. induction s as [|c s IH]; simpl; [reflexivity | now rewrite IH]. Qed.

Lemma string_append_inj_l (p a b : string) : (p ++ a = p ++ b)%string -> a = b.
Proof.
  induction p as [|c p IH]; simpl; intros H; [exact H|].
  injection H as H. now apply IH.
Qed.

Lemma no_bracket_split (a b t t' : string) :
  no_bracket a -> no_bracket b ->
  (a ++ String "]" t = b ++ String "]" t')%string ->
  a = b /\ t = t'.
Proof.
  revert b.
  induction a as [|c a IH]; intros [|c' b] Ha Hb H; simpl in *.
  - injection H as H. now split.
  - injection H as Hc _. destruct Hb as [Hb _]. now destruct Hb.
  - injection H as Hc _. destruct Ha as [Ha _]. now destruct Ha.
  - injection H as Hc H. destruct Ha as [_ Ha], Hb as [_ Hb].
    destruct (IH b Ha Hb H) as [-> ->]. now subst.
Qed.

Lemma no_bracket_uint (d : Decimal.uint) : no_bracket (NilZero.string_of_uint d).
Proof.
  assert (H : forall d, no_bracket (NilEmpty.string_of_uint d)).
  { induction d0; simpl; try split; try discriminate; auto. }
  destruct d; try apply H. simpl. split; [discriminate | exact I].
Qed.

Lemma to_uint_nonnil (n : nat) : Nat.to_uint n <> Decimal.Nil.
Proof.
  intros H.
  assert (Hn : n = 0) by (rewrite <- (Unsigned.of_to n), H; reflexivity).
  subst n. discriminate H.
Qed.

Lemma str_of_nat_inj (i j : nat) : str_of_nat i = str_of_nat j -> i = j.
Proof.
  unfold str_of_nat. intros H.
  apply Unsigned.to_uint_inj.
  apply (f_equal NilZero.uint_of_string) in H.
  rewrite !NilZero.usu in H by apply to_uint_nonnil.
  now injection H.
Qed.

Lemma bad_path_inj (i j : nat) (lp lp' : string) :
  bad_path i lp = bad_path j lp' ->
  i = j /\ py_tail lp = py_tail lp'.
Proof.
  unfold bad_path. intros H.
  apply string_append_inj_l in H.
  change ("]" ++ py_tail lp)%string with (String "]" (py_tail lp)) in H.
  change ("]" ++ py_tail lp')%string with (String "]" (py_tail lp')) in H.
  apply no_bracket_split in H; try apply no_bracket_uint.
  destruct H as [H1 H2]. split; [now apply str_of_nat_inj | exact H2].
Qed.

Lemma list_paths_prefix (val : json) :
  forall path t, In t (list_paths val path) -> exists suffix, t = (path ++ suffix)%string.
Proof.
  induction val as [| | | |items IH|fields IH] using json_ind; intros path t Hin;
    try contradiction.
  - simpl in Hin. destruct Hin as [<-|Hin].
    + exists ""%string. now rewrite string_append_nil_r.
    + apply in_flat_map in Hin as (e & He & Hin).
      rewrite Forall_forall in IH.
      destruct (IH e He _ _ Hin) as (suffix & ->).
      exists ("[*]" ++ suffix)%string. apply string_append_assoc.
  - simpl in Hin. apply in_flat_map in Hin as (kv & Hkv & Hin).
    rewrite Forall_forall in IH.
    destruct (IH kv Hkv _ _ Hin) as (suffix & ->).
    exists ("." ++ fst kv ++ suffix)%string.
    now rewrite !string_append_assoc.
Qed.

Lemma json_paths_to_lists_rooted (rmi : json) (list_path : string) :
  In list_path (json_paths_to_lists rmi) ->
  list_path = String "$" (py_tail list_path).
Proof.
  unfold json_paths_to_lists. rewrite nodup_In. intros Hin.
  destruct (list_paths_prefix _ _ _ Hin) as (suffix & ->). reflexivity.
Qed.

(** ** Counting the reported paths *)

Lemma count_occ_filter (f : string -> bool) (l : list string) (x : string) :
  count_occ string_dec (filter f l) x = if f x then count_occ string_dec l x else 0.
Proof.
  induction l as [|y l IH]; simpl; [now destruct (f x)|].
  destruct (string_dec y x) as [->|Hne].
  - destruct (f x) eqn:Hf; simpl; [|exact IH].
    destruct (string_dec x x); [now rewrite IH | contradiction].
  - destruct (f y); simpl; [|exact IH].
    destruct (string_dec y x); [contradiction | exact IH].
Qed.

Lemma count_occ_bad_paths (k i : nat) (paths : list string) (lp : string) :
  (forall x, In x paths -> x = String "$" (py_tail x)) ->
  lp = String "$" (py_tail lp) ->
  count_occ string_dec (map (bad_path k) paths) (bad_path i lp)
  = if Nat.eqb k i then count_occ string_dec paths lp else 0.
Proof.
  intros Hroot Hlp.
  induction paths as [|x rest IH]; cbn [map].
  - rewrite !count_occ_nil. now destruct (Nat.eqb k i).
  - assert (IH' := IH (fun y Hy => Hroot y (or_intror Hy))). clear IH.
    destruct (string_dec (bad_path k x) (bad_path i lp)) as [Heq|Hne].
    + rewrite (count_occ_cons_eq _ _ Heq), IH'.
      apply bad_path_inj in Heq as [-> Htail].
      assert (x = lp) as ->
          by (rewrite (Hroot x (or_introl eq_refl)), Hlp, Htail; reflexivity).
      rewrite Nat.eqb_refl. now rewrite (count_occ_cons_eq _ _ eq_refl).
    + rewrite (count_occ_cons_neq _ _ Hne), IH'.
      destruct (Nat.eqb k i) eqn:Hk; [|reflexivity].
      apply Nat.eqb_eq in Hk as ->.
      rewrite count_occ_cons_neq; [reflexivity|].
      intros ->. now apply Hne.
Qed.

Section Reported.

Variable set_order : list string -> list string.
Hypothesis set_order_perm : forall l, Permutation (set_order l) l.

Lemma set_order_rooted (rmi : json) (f : string -> bool) (x : string) :
  In x (filter f (set_order (json_paths_to_lists rmi))) ->
  x = String "$" (py_tail x).
Proof.
  intros Hin. apply filter_In in Hin as [Hin _].
  apply (Permutation_in _ (set_order_perm _)) in Hin.
  now apply json_paths_to_lists_rooted in Hin.
Qed.

Lemma count_reported_below (instances : list json) (k i : nat) (lp : string) :
  i < k ->
  lp = String "$" (py_tail lp) ->
  count_occ string_dec (reported_from set_order k instances) (bad_path i lp) = 0.
Proof.
  revert k.
  induction instances as [|rmi rest IH]; intros k Hlt Hlp; [reflexivity|].
  cbn [reported_from]. rewrite count_occ_app.
  rewrite count_occ_bad_paths; [| apply set_order_rooted | exact Hlp].
  replace (Nat.eqb k i) with false by (symmetry; apply Nat.eqb_neq; lia).
  rewrite IH; [reflexivity | lia | exact Hlp].
Qed.

Lemma count_reported (instances : list json) (k i : nat) (rmi : json) (lp : string) :
  k <= i ->
  nth_error instances (i - k) = Some rmi ->
  In lp (json_paths_to_lists rmi) ->
  count_occ string_dec (reported_from set_order k instances) (bad_path i lp)
  = if has_duplicate (ids_at rmi lp) then 1 else 0.
Proof.
  revert k.
  induction instances as [|r rest IH]; intros k Hle Hnth Hin.
  - destruct (i - k); discriminate.
  - pose proof (json_paths_to_lists_rooted _ _ Hin) as Hlp.
    cbn [reported_from]. rewrite count_occ_app.
    rewrite count_occ_bad_paths; [| apply set_order_rooted | exact Hlp].
    destruct (Nat.eqb k i) eqn:Hk.
    + apply Nat.eqb_eq in Hk as ->.
      rewrite Nat.sub_diag in Hnth. simpl in Hnth. injection Hnth as ->.
      rewrite count_reported_below by (lia || exact Hlp).
      rewrite count_occ_filter, Nat.add_0_r.
      destruct (has_duplicate (ids_at rmi lp)); [|reflexivity].
      apply NoDup_count_occ'.
      * apply (Permutation_NoDup (Permutation_sym (set_order_perm _))).
        apply NoDup_nodup.
      * apply (Permutation_in _ (Permutation_sym (set_order_perm _))). exact Hin.
    + apply Nat.eqb_neq in Hk.
      replace (i - k) with (S (i - S k)) in Hnth by lia. simpl in Hnth.
      rewrite (IH (S k)); [reflexivity | lia | exact Hnth | exact Hin].
Qed.

Lemma reported_from_In (instances : list json) (k : nat) (t : string) :
  In t (reported_from set_order k instances) ->
  exists i rmi lp,
    k <= i /\ nth_error instances (i - k) = Some rmi
    /\ In lp (json_paths_to_lists rmi)
    /\ has_duplicate (ids_at rmi lp) = true
    /\ t = bad_path i lp.
Proof.
  revert k.
  induction instances as [|r rest IH]; intros k Hin; [contradiction|].
  cbn [reported_from] in Hin. apply in_app_or in Hin as [Hin|Hin].
  - apply in_map_iff in Hin as (lp & <- & Hin).
    apply filter_In in Hin as [Hin Hdup].
    apply (Permutation_in _ (set_order_perm _)) in Hin.
    exists k, r, lp. rewrite Nat.sub_diag. repeat split; auto.
  - destruct (IH _ Hin) as (i & rmi & lp & Hle & Hnth & Hlp & Hdup & ->).
    exists i, rmi, lp. repeat split; auto; [lia|].
    replace (i - k) with (S (i - S k)) by lia. exact Hnth.
Qed.

Lemma readable_in_set_order (instances : list json) :
  forallb (fun rmi => forallb (readable rmi) (json_paths_to_lists rmi)) instances = true ->
  forallb (fun rmi => forallb (readable rmi) (set_order (json_paths_to_lists rmi)))
          instances = true.
Proof.
  rewrite !forallb_forall. intros H rmi Hrmi.
  specialize (H rmi Hrmi). rewrite forallb_forall in *.
  intros lp Hlp. apply H. apply (Permutation_in _ (set_order_perm _)). exact Hlp.
Qed.

End Reported.

(** ** The uniqueness check *)

Lemma collect_bad_paths_reported
  (set_order : list string -> list string) (rpd : json) (instances : list json) :
  (forall l, Permutation (set_order l) l) ->
  model_instances rpd = Ok instances ->
  forallb (fun rmi => forallb (readable rmi) (json_paths_to_lists rmi)) instances = true ->
  collect_bad_paths set_order rpd = Ok (reported_from set_order 0 instances).
Proof.
  intros Hperm Hinst Hread.
  unfold collect_bad_paths. unfold model_instances in Hinst.
  destruct (py_get rpd "ruleset_model_descriptions" (JArr [])) as [rmds|e];
    [|discriminate].
  rewrite bind_ok in Hinst. rewrite bind_ok, Hinst, bind_ok.
  rewrite check_instances_spec by (apply readable_in_set_order; assumption).
  reflexivity.
Qed.

Lemma py_set_from_hashable (ids seen s : list json) :
  py_set_from seen ids = Ok s -> forallb hashable ids = true.
Proof.
  revert seen.
  induction ids as [|x rest IH]; intros seen H; [reflexivity|].
  cbn [py_set_from] in H. cbn [forallb].
  destruct (hashable x); [|discriminate].
  simpl. exact (IH _ H).
Qed.

Lemma check_list_paths_returns (rmi_index : nat) (rmi : json)
  (paths bad_paths result : list string) :
  check_list_paths rmi_index rmi paths bad_paths = Ok result ->
  forallb (readable rmi) paths = true.
Proof.
  revert bad_paths.
  induction paths as [|lp rest IH]; intros bad_paths H; [reflexivity|].
  cbn [check_list_paths] in H. cbn [forallb]. unfold readable at 1.
  destruct (find_all (lp ++ "[*].id")%string rmi) as [ids|e]; [|discriminate].
  rewrite bind_ok in H.
  destruct (py_set ids) as [s|e] eqn:Hs; [|discriminate].
  rewrite bind_ok in H.
  rewrite (py_set_from_hashable _ _ Hs). simpl.
  destruct (negb (Nat.eqb (List.length ids) (List.length s))); exact (IH _ H).
Qed.

Lemma check_instances_returns (set_order : list string -> list string)
  (instances : list json) (rmi_index : nat) (bad_paths result : list string) :
  check_instances set_order rmi_index instances bad_paths = Ok result ->
  forallb (fun rmi => forallb (readable rmi) (set_order (json_paths_to_lists rmi)))
          instances = true.
Proof.
  revert rmi_index bad_paths.
  induction instances as [|rmi rest IH]; intros rmi_index bad_paths H; [reflexivity|].
  cbn [check_instances] in H. cbv zeta in H. cbn [forallb].
  destruct (check_list_paths rmi_index rmi (set_order (json_paths_to_lists rmi)) bad_paths)
    as [bp|e] eqn:Hl; [|discriminate].
  rewrite bind_ok in H.
  rewrite (check_list_paths_returns _ _ _ _ Hl). simpl. exact (IH _ _ H).
Qed.

Lemma collect_bad_paths_returns
  (set_order : list string -> list string) (rpd : json) (bad_paths : list string) :
  (forall l, Permutation (set_order l) l) ->
  collect_bad_paths set_order rpd = Ok bad_paths ->
  exists instances,
    model_instances rpd = Ok instances
    /\ forallb (fun rmi => forallb (readable rmi) (json_paths_to_lists rmi)) instances
       = true.
Proof.
  intros Hperm H.
  unfold collect_bad_paths in H. unfold model_instances.
  destruct (py_get rpd "ruleset_model_descriptions" (JArr [])) as [rmds|e];
    [|discriminate].
  rewrite bind_ok in H. rewrite bind_ok.
  destruct (py_iter rmds) as [instances|e]; [|discriminate].
  rewrite bind_ok in H. exists instances. split; [reflexivity|].
  apply check_instances_returns in H.
  rewrite forallb_forall in *. intros rmi Hrmi.
  specialize (H rmi Hrmi). rewrite forallb_forall in *.
  intros lp Hlp. apply H.
  apply (Permutation_in _ (Permutation_sym (Hperm _))). exact Hlp.
Qed.

Lemma filter_nil_iff {A : Type} (f : A -> bool) (l : list A) :
  filter f l = [] <-> forall x, In x l -> f x = false.
Proof.
  induction l as [|y l IH]; simpl; [now split|].
  destruct (f y) eqn:Hy.
  - split; [discriminate|]. intros H. rewrite (H y (or_introl eq_refl)) in Hy.
    discriminate.
  - rewrite IH. split.
    + intros H x [<-|Hx]; [exact Hy | now apply H].
    + intros H x Hx. apply H. now right.
Qed.

Lemma reported_from_nil_iff (set_order : list string -> list string)
  (instances : list json) (k : nat) :
  (forall l, Permutation (set_order l) l) ->
  reported_from set_order k instances = []
  <-> forall rmi lp, In rmi instances -> In lp (json_paths_to_lists rmi) ->
                     has_duplicate (ids_at rmi lp) = false.
Proof.
  intros Hperm. revert k.
  induction instances as [|r rest IH]; intros k; cbn [reported_from].
  - split; [intros _ rmi lp [] | reflexivity].
  - split.
    + intros H. apply app_eq_nil in H as [Hhead Htail].
      apply map_eq_nil in Hhead. rewrite filter_nil_iff in Hhead.
      intros rmi lp [<-|Hrmi] Hlp.
      * apply Hhead. apply (Permutation_in _ (Permutation_sym (Hperm _))). exact Hlp.
      * apply (proj1 (IH (S k)) Htail rmi lp Hrmi Hlp).
    + intros H.
      replace (filter (fun list_path => has_duplicate (ids_at r list_path))
                      (set_order (json_paths_to_lists r))) with (@nil string).
      * simpl. apply IH. intros rmi lp Hrmi. apply H. now right.
      * symmetry. apply filter_nil_iff. intros lp Hlp.
        apply H; [now left|]. apply (Permutation_in _ (Hperm _)). exact Hlp.
Qed.

(** C2. The uniqueness check takes the instances one by one, each with the
    list paths found in it and the ids found under each of them in that
    instance alone.  Whenever it returns, a list path whose ids hold a
    repeated value is in [bad_paths] exactly once, however many of its ids
    are repeated, written from [ruleset_model_descriptions[i]] with the
    index [i] of its instance; a path whose ids are distinct is not in it,
    and nothing else is.  It raises only when the instances cannot be
    enumerated or an id query fails or returns a value that does not
    hash. *)
Theorem unique_ids_flags_each_path_once
  (set_order : list string -> list string) (rpd : json) :
  (forall l, Permutation (set_order l) l) ->
  match collect_bad_paths set_order rpd with
  | Ok bad_paths =>
      exists instances,
        model_instances rpd = Ok instances
        /\ check_unique_ids_in_ruleset_model_descriptions set_order rpd
           = Ok (error_msg bad_paths)
        /\ (forall i rmi list_path,
               nth_error instances i = Some rmi ->
               In list_path (json_paths_to_lists rmi) ->
               find_all (list_path ++ "[*].id")%string rmi = Ok (ids_at rmi list_path)
               /\ count_occ string_dec bad_paths
                    ("ruleset_model_descriptions[" ++ str_of_nat i ++ "]"
                     ++ py_tail list_path)%string
                  = if has_duplicate (ids_at rmi list_path) then 1 else 0)
        /\ (forall t,
               In t bad_paths ->
               exists i rmi list_path,
                 nth_error instances i = Some rmi
                 /\ In list_path (json_paths_to_lists rmi)
                 /\ has_duplicate (ids_at rmi list_path) = true
                 /\ t = ("ruleset_model_descriptions[" ++ str_of_nat i ++ "]"
                         ++ py_tail list_path)%string)
  | Raise _ =>
      forall instances,
        model_instances rpd = Ok instances ->
        forallb (fun rmi => forallb (readable rmi) (json_paths_to_lists rmi)) instances
        = false
  end.
Proof.
  intros Hperm.
  destruct (collect_bad_paths set_order rpd) as [bad_paths|e] eqn:Hcollect.
  - destruct (collect_bad_paths_returns set_order rpd Hperm Hcollect)
      as (instances & Hinst & Hread).
    pose proof (collect_bad_paths_reported set_order rpd Hperm Hinst Hread) as Hrep.
    rewrite Hcollect in Hrep. apply Ok_inj in Hrep. subst bad_paths.
    exists instances. split; [exact Hinst|]. split.
    { unfold check_unique_ids_in_ruleset_model_descriptions.
      now rewrite Hcollect, bind_ok. }
    split.
    + intros i rmi list_path Hnth Hin. split.
      * apply readable_ids.
        rewrite forallb_forall in Hread.
        specialize (Hread rmi (nth_error_In _ _ Hnth)).
        rewrite forallb_forall in Hread. now apply Hread.
      * apply (@count_reported set_order Hperm instances 0 i rmi list_path);
          [lia | | exact Hin].
        now rewrite Nat.sub_0_r.
    + intros t Hin.
      destruct (@reported_from_In set_order Hperm instances 0 t Hin)
        as (i & rmi & lp & _ & Hnth & Hlp & Hdup & ->).
      rewrite Nat.sub_0_r in Hnth.
      exists i, rmi, lp. repeat split; assumption.
  - intros instances Hinst.
    destruct (forallb (fun rmi => forallb (readable rmi) (json_paths_to_lists rmi))
                      instances) eqn:Hread; [|reflexivity].
    rewrite (collect_bad_paths_reported set_order rpd Hperm Hinst Hread) in Hcollect.
    discriminate.
Qed.

(** C3, as the code has it.  Whenever the uniqueness check returns, it
    returns one text.  The text is empty exactly when no list path of any
    instance has a repeated id.  Otherwise it is the words
    [Non-unique ids for paths: ] followed by the flagged paths joined by
    [; ]: each list path with a repeated id once, written from
    [ruleset_model_descriptions[i]] with the index [i] of its instance, and
    nothing else.  It raises exactly when the two loops raise. *)
Theorem unique_ids_returns_one_text
  (set_order : list string -> list string) (rpd : json) :
  (forall l, Permutation (set_order l) l) ->
  match check_unique_ids_in_ruleset_model_descriptions set_order rpd with
  | Ok text =>
      exists instances bad_paths,
        model_instances rpd = Ok instances
        /\ collect_bad_paths set_order rpd = Ok bad_paths
        /\ (forall i rmi list_path,
               nth_error instances i = Some rmi ->
               In list_path (json_paths_to_lists rmi) ->
               count_occ string_dec bad_paths
                 ("ruleset_model_descriptions[" ++ str_of_nat i ++ "]"
                  ++ py_tail list_path)%string
               = if has_duplicate (ids_at rmi list_path) then 1 else 0)
        /\ (forall t,
               In t bad_paths ->
               exists i rmi list_path,
                 nth_error instances i = Some rmi
                 /\ In list_path (json_paths_to_lists rmi)
                 /\ has_duplicate (ids_at rmi list_path) = true
                 /\ t = ("ruleset_model_descriptions[" ++ str_of_nat i ++ "]"
                         ++ py_tail list_path)%string)
        /\ text = (if truthy bad_paths
                   then ("Non-unique ids for paths: "
                         ++ String.concat "; " bad_paths)%string
                   else "")
        /\ (text = "" <-> bad_paths = [])
        /\ (text = ""
            <-> forall rmi list_path,
                  In rmi instances -> In list_path (json_paths_to_lists rmi) ->
                  has_duplicate (ids_at rmi list_path) = false)
  | Raise e => collect_bad_paths set_order rpd = Raise e
  end.
Proof.
  intros Hperm. unfold check_unique_ids_in_ruleset_model_descriptions.
  destruct (collect_bad_paths set_order rpd) as [bad_paths|e] eqn:Hcollect;
    cbn [bind]; [|reflexivity].
  destruct (collect_bad_paths_returns set_order rpd Hperm Hcollect)
    as (instances & Hinst & Hread).
  pose proof (collect_bad_paths_reported set_order rpd Hperm Hinst Hread) as Hrep.
  rewrite Hcollect in Hrep. apply Ok_inj in Hrep.
  assert (Hempty : error_msg bad_paths = ""%string <-> bad_paths = []).
  { destruct bad_paths; simpl; split; intros H; try reflexivity; discriminate H. }
  exists instances, bad_paths.
  split; [exact Hinst|]. split; [reflexivity|]. split; [|split; [|split; [|split]]].
  - intros i rmi list_path Hnth Hin. rewrite Hrep.
    apply (@count_reported set_order Hperm instances 0 i rmi list_path);
      [lia | | exact Hin].
    now rewrite Nat.sub_0_r.
  - intros t Hin. rewrite Hrep in Hin.
    destruct (@reported_from_In set_order Hperm instances 0 t Hin)
      as (i & rmi & lp & _ & Hnth & Hlp & Hdup & ->).
    rewrite Nat.sub_0_r in Hnth.
    exists i, rmi, lp. repeat split; assumption.
  - now destruct bad_paths.
  - exact Hempty.
  - rewrite Hempty, Hrep. now apply reported_from_nil_iff.
Qed.

(** C3, against the reading as a sequence.  The check on [sample_dup_rpd]
    returns one text, and the items of that text, its characters, are not
    the reported paths. *)
Lemma unique_ids_result_is_not_a_path_sequence :
  collect_bad_paths id_order sample_dup_rpd
  = Ok ["ruleset_model_descriptions[0].schedules"%string]
  /\ check_unique_ids_in_ruleset_model_descriptions id_order sample_dup_rpd
     = Ok "Non-unique ids for paths: ruleset_model_descriptions[0].schedules"%string
  /\ ~ returns_path_sequence id_order sample_dup_rpd.
Proof.
  split; [vm_compute; reflexivity|]. split; [vm_compute; reflexivity|].
  intros (bad_paths & v & Hbad & Hv & Hitems).
  vm_compute in Hbad. apply Ok_inj in Hbad. subst bad_paths.
  vm_compute in Hv. apply Ok_inj in Hv. subst v.
  vm_compute in Hitems. discriminate Hitems.
Qed.

(** ** Concrete runs *)

Lemma unique_ids_returns_one_text_witness :
  exists instances bad_paths,
    model_instances sample_dup_rpd = Ok instances
    /\ collect_bad_paths id_order sample_dup_rpd = Ok bad_paths
    /\ (forall i rmi list_path,
           nth_error instances i = Some rmi ->
           In list_path (json_paths_to_lists rmi) ->
           count_occ string_dec bad_paths
             ("ruleset_model_descriptions[" ++ str_of_nat i ++ "]"
              ++ py_tail list_path)%string
           = if has_duplicate (ids_at rmi list_path) then 1 else 0)
    /\ (forall t,
           In t bad_paths ->
           exists i rmi list_path,
             nth_error instances i = Some rmi
             /\ In list_path (json_paths_to_lists rmi)
             /\ has_duplicate (ids_at rmi list_path) = true
             /\ t = ("ruleset_model_descriptions[" ++ str_of_nat i ++ "]"
                     ++ py_tail list_path)%string)
    /\ "Non-unique ids for paths: ruleset_model_descriptions[0].schedules"%string
       = (if truthy bad_paths
          then ("Non-unique ids for paths: " ++ String.concat "; " bad_paths)%string
          else ""%string)
    /\ ("Non-unique ids for paths: ruleset_model_descriptions[0].schedules"%string
        = ""%string
        <-> bad_paths = [])
    /\ ("Non-unique ids for paths: ruleset_model_descriptions[0].schedules"%string
        = ""%string
        <-> forall rmi list_path,
              In rmi instances -> In list_path (json_paths_to_lists rmi) ->
              has_duplicate (ids_at rmi list_path) = false).
Proof.
  apply (@unique_ids_returns_one_text id_order sample_dup_rpd).
  intros l. apply Permutation_refl.
Defined.

Lemma unique_ids_flags_each_path_once_witness :
  exists instances,
    model_instances sample_dup_rpd = Ok instances
    /\ check_unique_ids_in_ruleset_model_descriptions id_order sample_dup_rpd
       = Ok (error_msg ["ruleset_model_descriptions[0].schedules"%string])
    /\ (forall i rmi list_path,
           nth_error instances i = Some rmi ->
           In list_path (json_paths_to_lists rmi) ->
           find_all (list_path ++ "[*].id")%string rmi = Ok (ids_at rmi list_path)
           /\ count_occ string_dec ["ruleset_model_descriptions[0].schedules"%string]
                ("ruleset_model_descriptions[" ++ str_of_nat i ++ "]"
                 ++ py_tail list_path)%string
              = if has_duplicate (ids_at rmi list_path) then 1 else 0)
    /\ (forall t,
           In t ["ruleset_model_descriptions[0].schedules"%string] ->
           exists i rmi list_path,
             nth_error instances i = Some rmi
             /\ In list_path (json_paths_to_lists rmi)
             /\ has_duplicate (ids_at rmi list_path) = true
             /\ t = ("ruleset_model_descriptions[" ++ str_of_nat i ++ "]"
                     ++ py_tail list_path)%string).
Proof.
  apply (@unique_ids_flags_each_path_once id_order sample_dup_rpd).
  intros l. apply Permutation_refl.
Defined.

Lemma piping_decision_and_message_witness :
  passed {| passed := false;
            error := Some [piping_message py_str_plain []] |} = false
  /\ exists s errors,
       check_schedule_association sample_pump_rpd = Ok s
       /\ error {| passed := false;
                   error := Some [piping_message py_str_plain []] |} = Some errors
       /\ In (piping_message py_str_plain s) errors.
Proof.
  apply (@piping_decision_and_message id_order py_str_plain sample_pump_rpd [JStr "L9"]).
  - vm_compute. reflexivity.
  - discriminate.
  - vm_compute. reflexivity.
Defined.

Lemma find_all_by_jsonpaths_concatenates_witness :
  find_all_by_jsonpaths [hvac_id_jsonpath; served_by_hvac_jsonpath] sample_hvac_rpd
  = Ok ([JStr "A"; JStr "B"] ++ [JStr "A"; JStr "C"; JStr "C"]).
Proof.
  apply (proj2 (find_all_by_jsonpaths_concatenates sample_hvac_rpd)).
  - vm_compute. reflexivity.
  - vm_compute. reflexivity.
Defined.

Lemma find_all_fails_only_at_parse_witness :
  find_all served_by_hvac_jsonpath sample_pump_rpd
  = Ok (matches served_by_hvac_jsonpath sample_pump_rpd).
Proof.
  apply (proj1 (find_all_fails_only_at_parse served_by_hvac_jsonpath)).
  vm_compute. reflexivity.
Defined.

Lemma check_unique_ids_without_instances_witness :
  py_get sample_bare_rpd "ruleset_model_descriptions" (JArr []) = Ok (JArr [])
  /\ collect_bad_paths id_order sample_bare_rpd = Ok []
  /\ check_unique_ids_in_ruleset_model_descriptions id_order sample_bare_rpd
     = Ok ""%string.
Proof.
  apply (@check_unique_ids_without_instances id_order [("id"%string, JStr "rpd")]).
  reflexivity.
Defined.

(** ** Equality and membership on the values of the model *)

Lemma dict_get_distinct (fields : list (string * json)) (kv : string * json) :
  NoDup (map fst fields) -> In kv fields -> dict_get (fst kv) fields = Some (snd kv).
Proof.
  induction fields as [|[k v] rest IH]; intros Hnd Hin; [contradiction|].
  simpl in Hnd. apply NoDup_cons_iff in Hnd as [Hk Hnd].
  cbn [dict_get]. destruct Hin as [<-|Hin].
  - cbn [fst snd]. now rewrite String.eqb_refl.
  - destruct (String.eqb (fst kv) k) eqn:E.
    + apply String.eqb_eq in E. subst k. destruct Hk. now apply in_map.
    + now apply IH.
Qed.

(** A value with distinct keys is equal to itself, so on such values the
    test of identity in Python's [in] adds nothing to [==]. *)
Lemma py_eq_refl (v : json) : distinct_keys v -> py_eq v v = true.
Proof.
  induction v as [|b|n|s|items IH|fields IH] using json_ind; intros Hd;
    cbn [py_eq].
  - reflexivity.
  - now destruct b.
  - apply Z.eqb_refl.
  - apply String.eqb_refl.
  - cbn [distinct_keys] in Hd.
    induction IH as [|x l Hx _ IHl]; [reflexivity|].
    destruct Hd as [Hdx Hdl]. rewrite (Hx Hdx). now apply IHl.
  - cbn [distinct_keys] in Hd. destruct Hd as [Hnd Hall].
    rewrite Nat.eqb_refl. cbn [andb]. apply forallb_forall. intros kv Hkv.
    rewrite (dict_get_distinct fields kv Hnd Hkv).
    rewrite Forall_forall in IH. apply (IH kv Hkv).
    clear Hnd IH. induction fields as [|kv' rest IHr]; [contradiction|].
    destruct Hall as [Hhead Htail]. destruct Hkv as [<-|Hkv]; [exact Hhead|].
    now apply IHr.
Qed.

Lemma py_in_self (v : json) (l : list json) :
  distinct_keys v -> In v l -> py_in v l = true.
Proof.
  intros Hd Hin. unfold py_in. apply existsb_exists.
  exists v. split; [exact Hin | now apply py_eq_refl].
Qed.

(** ** The checks as functions of the instances *)

Lemma parse_instances_expression :
  parse "$.ruleset_model_descriptions[*]"
  = Some [Field "ruleset_model_descriptions"; Wildcard].
Proof. vm_compute. reflexivity. Qed.

Lemma matches_rooted (expression : string) (rpd : json) :
  rooted expression = true ->
  matches expression rpd = run_steps (instances_of rpd) (tail_steps expression).
Proof.
  unfold rooted, tail_steps, instances_of, matches, find_all.
  rewrite parse_instances_expression.
  destruct (parse expression) as [[|[name|] [|[name'|] rest]]|]; try discriminate.
  intros H. apply String.eqb_eq in H. subst name. reflexivity.
Qed.

Lemma all_matches_rooted (expressions : list string) (rpd : json) :
  forallb rooted expressions = true ->
  all_matches expressions rpd = select (instances_of rpd) expressions.
Proof.
  unfold all_matches, select.
  induction expressions as [|p rest IH]; intros H; [reflexivity|].
  simpl in H. apply andb_true_iff in H as [Hp Hrest].
  cbn [flat_map]. now rewrite (matches_rooted _ _ Hp), (IH Hrest).
Qed.

Lemma instances_of_dict (fields : list (string * json)) :
  instances_of (JObj fields)
  = match dict_get "ruleset_model_descriptions" fields with
    | Some (JArr instances) => instances
    | _ => []
    end.
Proof.
  unfold instances_of, matches, find_all. rewrite parse_instances_expression.
  unfold evaluate, run_steps. cbn [fold_left flat_map apply_step].
  destruct (dict_get "ruleset_model_descriptions" fields) as [[| | | |items|]|];
    cbn [app flat_map apply_step]; try reflexivity.
  apply app_nil_r.
Qed.

Lemma check_table_spec :
  Forall (fun entry =>
            forallb rooted (fst (snd entry)) = true
            /\ forallb rooted (snd (snd entry)) = true
            /\ forall rpd,
                fst entry rpd
                = Ok (dangling (all_matches (fst (snd entry)) rpd)
                               (all_matches (snd (snd entry)) rpd)))
         check_table.
Proof.
  unfold check_table.
  repeat (apply Forall_cons; [split; [vm_compute; reflexivity|];
                              split; [vm_compute; reflexivity|];
                              intros rpd; cbn [fst snd]; rewrite ?all_matches_one|]).
  - apply check_hvac_association_ok.
  - apply check_zone_association_ok.
  - apply check_fluid_loop_association_ok.
  - apply check_schedule_association_ok.
  - apply check_fluid_loop_or_piping_association_ok.
  - apply check_service_water_heating_association_ok.
  - apply Forall_nil.
Qed.

Lemma check_table_on_instances :
  Forall (fun entry =>
            forall rpd,
              fst entry rpd
              = Ok (dangling (select (instances_of rpd) (fst (snd entry)))
                             (select (instances_of rpd) (snd (snd entry)))))
         check_table.
Proof.
  eapply Forall_impl; [|exact check_table_spec].
  intros entry (Hids & Hrefs & Hcheck) rpd.
  now rewrite Hcheck, (all_matches_rooted _ _ Hids), (all_matches_rooted _ _ Hrefs).
Qed.

Lemma reference_checks_table : reference_checks = map fst check_table.
Proof. reflexivity. Qed.

Lemma reference_checks_on_instances :
  Forall (fun check =>
            exists id_paths ref_paths,
              forall rpd,
                check rpd
                = Ok (dangling (select (instances_of rpd) id_paths)
                               (select (instances_of rpd) ref_paths)))
         reference_checks.
Proof.
  rewrite reference_checks_table. apply Forall_map.
  eapply Forall_impl; [|exact check_table_on_instances].
  intros [check [ids refs]] H. exists ids, refs. exact H.
Qed.

Lemma select_nil (expressions : list string) : select [] expressions = [].
Proof.
  unfold select. induction expressions as [|p rest IH]; [reflexivity|].
  cbn [flat_map]. now rewrite run_steps_nil, IH.
Qed.



Lemma dangling_In (ids referenced : list json) (v : json) :
  In v (dangling ids referenced) <-> In v referenced /\ py_in v ids = false.
Proof.
  unfold dangling. rewrite filter_In, negb_true_iff. reflexivity.
Qed.

Lemma dangling_nil_iff (ids referenced : list json) :
  dangling ids referenced = []
  <-> forall v, In v referenced -> py_in v ids = true.
Proof.
  split.
  - intros H v Hv. destruct (py_in v ids) eqn:Hin; [reflexivity|].
    assert (Hd : In v (dangling ids referenced)) by (apply dangling_In; now split).
    rewrite H in Hd. contradiction.
  - intros H. destruct (dangling ids referenced) as [|x rest] eqn:Hd; [reflexivity|].
    assert (Hx : In x (dangling ids referenced)) by (rewrite Hd; now left).
    apply dangling_In in Hx as [Hx Hin]. rewrite (H x Hx) in Hin. discriminate.
Qed.

(** X1. A dangling-reference check returns the empty list exactly when
    every value its reference expressions select is contained, by Python's
    [in], in the list of the values its id expressions select.  ([in] holds
    of an item that is the value itself or is equal to it; a value of the
    model is equal to itself, [py_eq_refl], so [py_in] is that test.) *)
Theorem checks_empty_iff_resolved :
  Forall (fun entry =>
            forall rpd,
              fst entry rpd = Ok []
              <-> forall v, In v (all_matches (snd (snd entry)) rpd) ->
                            py_in v (all_matches (fst (snd entry)) rpd) = true)
         check_table.
Proof.
  eapply Forall_impl; [|exact check_table_spec].
  intros entry (_ & _ & Hcheck) rpd. rewrite Hcheck, <- dangling_nil_iff.
  split; intros H; [now apply Ok_inj in H | now rewrite H].
Qed.

(** X2. On a document in which [$.ruleset_model_descriptions[*]] selects
    nothing (the field is missing, is no list, or is the empty list, or the
    root is no dict) each of the six checks returns the empty list. *)
Theorem checks_empty_without_instances (rpd : json) :
  instances_of rpd = [] ->
  Forall (fun check => check rpd = Ok []) reference_checks.
Proof.
  intros Hnone.
  eapply Forall_impl; [|exact reference_checks_on_instances].
  intros check (ids & refs & Hcheck).
  rewrite Hcheck, Hnone, !select_nil. reflexivity.
Qed.


(** ** The orchestrator on the instances *)

Lemma matches_no_instances (expression : string) (rpd : json) :
  rooted expression = true -> instances_of rpd = [] -> matches expression rpd = [].
Proof.
  intros Hr Hnone. now rewrite (matches_rooted _ _ Hr), Hnone, run_steps_nil.
Qed.

Lemma all_matches_no_instances (expressions : list string) (rpd : json) :
  forallb rooted expressions = true -> instances_of rpd = [] ->
  all_matches expressions rpd = [].
Proof.
  intros Hr Hnone. now rewrite (all_matches_rooted _ _ Hr), Hnone, select_nil.
Qed.

Lemma check_unique_ids_no_instances
  (set_order : list string -> list string) (fields : list (string * json)) :
  dict_get "ruleset_model_descriptions" fields = None
  \/ dict_get "ruleset_model_descriptions" fields = Some (JArr []) ->
  check_unique_ids_in_ruleset_model_descriptions set_order (JObj fields) = Ok "".
Proof.
  unfold check_unique_ids_in_ruleset_model_descriptions, collect_bad_paths, py_get.
  intros [H|H]; rewrite H; reflexivity.
Qed.

(** X3. A document dict whose field [ruleset_model_descriptions] is missing
    or is the empty list passes: [validate_references] returns [passed]
    true and no error list. *)
Theorem validate_references_passes_without_instances
  (set_order : list string -> list string) (py_str : list json -> string)
  (fields : list (string * json)) :
  dict_get "ruleset_model_descriptions" fields = None
  \/ dict_get "ruleset_model_descriptions" fields = Some (JArr []) ->
  validate_references set_order py_str (JObj fields)
  = Ok {| passed := true; error := None |}.
Proof.
  intros H.
  assert (Hnone : instances_of (JObj fields) = []).
  { rewrite instances_of_dict. destruct H as [H|H]; now rewrite H. }
  rewrite (validate_references_report set_order py_str (JObj fields)
             (check_unique_ids_no_instances set_order fields H)).
  cbv zeta.
  rewrite (matches_no_instances served_by_hvac_jsonpath)
    by (vm_compute; reflexivity || exact Hnone).
  rewrite (matches_no_instances pump_loop_or_piping_jsonpath)
    by (vm_compute; reflexivity || exact Hnone).
  rewrite (all_matches_no_instances zone_reference_jsonpaths)
    by (vm_compute; reflexivity || exact Hnone).
  rewrite (all_matches_no_instances fluid_reference_jsonpaths)
    by (vm_compute; reflexivity || exact Hnone).
  rewrite (all_matches_no_instances schedule_reference_jsonpaths)
    by (vm_compute; reflexivity || exact Hnone).
  rewrite (all_matches_no_instances service_water_heating_reference_jsonpaths)
    by (vm_compute; reflexivity || exact Hnone).
  reflexivity.
Qed.

Lemma reference_checks_frame :
  Forall (fun check =>
            forall rpd1 rpd2 : json,
              instances_of rpd1 = instances_of rpd2 -> check rpd1 = check rpd2)
         reference_checks.
Proof.
  eapply Forall_impl; [|exact reference_checks_on_instances].
  intros check (ids & refs & Hcheck) rpd1 rpd2 H.
  now rewrite !Hcheck, H.
Qed.

(** X4. [validate_references] reads nothing of a document dict but the
    field [ruleset_model_descriptions]: two dicts that agree on it get the
    same result. *)
Theorem validate_references_reads_only_instances
  (set_order : list string -> list string) (py_str : list json -> string)
  (fields1 fields2 : list (string * json)) :
  dict_get "ruleset_model_descriptions" fields1
  = dict_get "ruleset_model_descriptions" fields2 ->
  validate_references set_order py_str (JObj fields1)
  = validate_references set_order py_str (JObj fields2).
Proof.
  intros H.
  assert (Hi : instances_of (JObj fields1) = instances_of (JObj fields2))
    by now rewrite !instances_of_dict, H.
  assert (Hu : check_unique_ids_in_ruleset_model_descriptions set_order (JObj fields1)
               = check_unique_ids_in_ruleset_model_descriptions set_order (JObj fields2)).
  { unfold check_unique_ids_in_ruleset_model_descriptions, collect_bad_paths, py_get.
    now rewrite H. }
  pose proof reference_checks_frame as F. unfold reference_checks in F.
  repeat match type of F with
         | Forall _ (_ :: _) =>
             let Hc := fresh "Hc" in
             pose proof (Forall_inv F _ _ Hi) as Hc; apply Forall_inv_tail in F
         end.
  unfold validate_references.
  rewrite Hu, Hc, Hc0, Hc1, Hc2, Hc3, Hc4. reflexivity.
Qed.

(** X6. The values the fluid-loop-or-piping check returns never reach the
    report: two documents on which the other six results agree, and on
    which that check fails alike or passes alike, get the same report. *)
Theorem piping_values_not_reported
  (set_order : list string -> list string) (py_str : list json -> string)
  (rpd1 rpd2 : json) :
  check_unique_ids_in_ruleset_model_descriptions set_order rpd1
  = check_unique_ids_in_ruleset_model_descriptions set_order rpd2 ->
  check_hvac_association rpd1 = check_hvac_association rpd2 ->
  check_zone_association rpd1 = check_zone_association rpd2 ->
  check_fluid_loop_association rpd1 = check_fluid_loop_association rpd2 ->
  check_schedule_association rpd1 = check_schedule_association rpd2 ->
  check_service_water_heating_association rpd1
  = check_service_water_heating_association rpd2 ->
  (forall p1 p2,
      check_fluid_loop_or_piping_association rpd1 = Ok p1 ->
      check_fluid_loop_or_piping_association rpd2 = Ok p2 ->
      truthy p1 = truthy p2) ->
  validate_references set_order py_str rpd1 = validate_references set_order py_str rpd2.
Proof.
  intros Hu Hh Hz Hf Hs Hw Hp.
  destruct (check_unique_ids_in_ruleset_model_descriptions set_order rpd1)
    as [u|e] eqn:Hu1.
  2:{ unfold validate_references. now rewrite <- Hu, Hu1. }
  symmetry in Hu.
  rewrite (validate_references_report set_order py_str rpd1 Hu1),
    (validate_references_report set_order py_str rpd2 Hu).
  cbv zeta.
  rewrite !check_hvac_association_ok in Hh. apply Ok_inj in Hh.
  rewrite !check_zone_association_ok in Hz. apply Ok_inj in Hz.
  rewrite !check_fluid_loop_association_ok in Hf. apply Ok_inj in Hf.
  rewrite !check_schedule_association_ok in Hs. apply Ok_inj in Hs.
  rewrite !check_service_water_heating_association_ok in Hw. apply Ok_inj in Hw.
  specialize (Hp _ _ (check_fluid_loop_or_piping_association_ok rpd1)
                 (check_fluid_loop_or_piping_association_ok rpd2)).
  rewrite Hh, Hz, Hf, Hs, Hw, Hp. reflexivity.
Qed.

(** ** More on the uniqueness check *)

Lemma has_duplicate_positions (ids : list json) :
  has_duplicate ids = true
  <-> exists i j a b,
        i < j /\ nth_error ids i = Some a /\ nth_error ids j = Some b
        /\ py_eq a b = true.
Proof.
  induction ids as [|x rest IH].
  - split; [discriminate|]. intros (i & j & a & b & _ & Hi & _). now destruct i.
  - cbn [has_duplicate]. rewrite orb_true_iff, existsb_exists, IH. split.
    + intros [(y & Hy & Heq)|(i & j & a & b & Hlt & Hi & Hj & Heq)].
      * apply In_nth_error in Hy as (j & Hj).
        exists 0, (S j), x, y. repeat split; try assumption. lia.
      * exists (S i), (S j), a, b. repeat split; try assumption. lia.
    + intros (i & j & a & b & Hlt & Hi & Hj & Heq).
      destruct j as [|j]; [lia|]. cbn [nth_error] in Hj.
      destruct i as [|i].
      * cbn [nth_error] in Hi. injection Hi as <-.
        left. exists b. split; [now apply nth_error_In in Hj | exact Heq].
      * cbn [nth_error] in Hi. right.
        exists i, j, a, b. repeat split; try assumption. lia.
Qed.

Lemma has_duplicate_contained (ids : list json) :
  has_duplicate ids = true
  <-> exists j b, nth_error ids j = Some b /\ py_in b (firstn j ids) = true.
Proof.
  rewrite has_duplicate_positions. split.
  - intros (i & j & a & b & Hlt & Hi & Hj & Heq).
    exists j, b. split; [exact Hj|].
    unfold py_in. apply existsb_exists. exists a. split; [|exact Heq].
    apply (nth_error_In _ i). rewrite nth_error_firstn.
    now replace (Nat.ltb i j) with true by (symmetry; apply Nat.ltb_lt; exact Hlt).
  - intros (j & b & Hj & Hin).
    unfold py_in in Hin. apply existsb_exists in Hin as (a & Ha & Heq).
    apply In_nth_error in Ha as (i & Hi). rewrite nth_error_firstn in Hi.
    destruct (Nat.ltb i j) eqn:Hlt; [|discriminate].
    apply Nat.ltb_lt in Hlt. exists i, j, a, b. repeat split; assumption.
Qed.

Lemma no_duplicate_contained (ids : list json) :
  has_duplicate ids = false
  <-> forall j b, nth_error ids j = Some b -> py_in b (firstn j ids) = false.
Proof.
  split.
  - intros H j b Hj. destruct (py_in b (firstn j ids)) eqn:Hin; [|reflexivity].
    rewrite <- H. symmetry. apply has_duplicate_contained. now exists j, b.
  - intros H. destruct (has_duplicate ids) eqn:Hd; [|reflexivity].
    apply has_duplicate_contained in Hd as (j & b & Hj & Hin).
    now rewrite (H j b Hj) in Hin.
Qed.

(** X7. The uniqueness check returns the empty text exactly when the
    instances can be enumerated and, in each instance, the id query of
    every list path returns values that hash and none of which is
    contained, by Python's [in], in the list of the ids before it.  ([in]
    holds of an item that is the value itself or is equal to it; a value of
    the model is equal to itself, [py_eq_refl], so [py_in] is that test.) *)
Theorem unique_ids_empty_text_iff_unique
  (set_order : list string -> list string) (rpd : json) :
  (forall l, Permutation (set_order l) l) ->
  check_unique_ids_in_ruleset_model_descriptions set_order rpd = Ok ""
  <-> exists instances,
        model_instances rpd = Ok instances
        /\ forall rmi lp,
             In rmi instances -> In lp (json_paths_to_lists rmi) ->
             readable rmi lp = true
             /\ forall j b,
                  nth_error (ids_at rmi lp) j = Some b ->
                  py_in b (firstn j (ids_at rmi lp)) = false.
Proof.
  intros Hperm. unfold check_unique_ids_in_ruleset_model_descriptions. split.
  - destruct (collect_bad_paths set_order rpd) as [bad_paths|e] eqn:Hcollect;
      [|discriminate].
    rewrite bind_ok. intros Hmsg. apply Ok_inj in Hmsg.
    destruct bad_paths as [|t rest]; [|discriminate].
    destruct (collect_bad_paths_returns set_order rpd Hperm Hcollect)
      as (instances & Hinst & Hread).
    pose proof (collect_bad_paths_reported set_order rpd Hperm Hinst Hread) as Hrep.
    rewrite Hcollect in Hrep. apply Ok_inj in Hrep. symmetry in Hrep.
    exists instances. split; [exact Hinst|]. intros rmi lp Hrmi Hlp. split.
    + rewrite forallb_forall in Hread. specialize (Hread rmi Hrmi).
      rewrite forallb_forall in Hread. now apply Hread.
    + apply no_duplicate_contained.
      apply (proj1 (reported_from_nil_iff set_order instances 0 Hperm) Hrep rmi lp);
        assumption.
  - intros (instances & Hinst & Hall).
    assert (Hread : forallb (fun rmi => forallb (readable rmi) (json_paths_to_lists rmi))
                            instances = true).
    { apply forallb_forall. intros rmi Hrmi. apply forallb_forall. intros lp Hlp.
      now apply Hall. }
    rewrite (collect_bad_paths_reported set_order rpd Hperm Hinst Hread), bind_ok.
    replace (reported_from set_order 0 instances) with (@nil string); [reflexivity|].
    symmetry. apply reported_from_nil_iff; [exact Hperm|].
    intros rmi lp Hrmi Hlp. apply no_duplicate_contained. now apply Hall.
Qed.

(** X8. When the field [ruleset_model_descriptions] of a document dict is
    [None], a [bool] or an [int], [enumerate] raises [TypeError]; the
    uniqueness check and [validate_references] raise it too. *)
Theorem validate_references_raises_on_non_iterable
  (set_order : list string -> list string) (py_str : list json -> string)
  (fields : list (string * json)) (v : json) :
  dict_get "ruleset_model_descriptions" fields = Some v ->
  v = JNull \/ (exists b, v = JBool b) \/ (exists n, v = JInt n) ->
  check_unique_ids_in_ruleset_model_descriptions set_order (JObj fields) = Raise TypeError
  /\ validate_references set_order py_str (JObj fields) = Raise TypeError.
Proof.
  intros Hget Hv.
  assert (Hu : check_unique_ids_in_ruleset_model_descriptions set_order (JObj fields)
               = Raise TypeError).
  { unfold check_unique_ids_in_ruleset_model_descriptions, collect_bad_paths, py_get.
    rewrite Hget. destruct Hv as [->|[[b ->]|[n ->]]]; reflexivity. }
  split; [exact Hu|]. unfold validate_references. now rewrite Hu.
Qed.

Lemma py_set_from_raises (ids seen : list json) (e : exn) :
  py_set_from seen ids = Raise e -> e = TypeError.
Proof.
  revert seen.
  induction ids as [|x rest IH]; intros seen H; [discriminate|].
  cbn [py_set_from] in H. destruct (hashable x); [exact (IH _ H)|].
  now injection H.
Qed.

Lemma check_list_paths_raises (rmi_index : nat) (rmi : json)
  (paths bad_paths : list string) (e : exn) :
  (forall lp, In lp paths -> well_formed (lp ++ "[*].id")%string = true) ->
  check_list_paths rmi_index rmi paths bad_paths = Raise e -> e = TypeError.
Proof.
  revert bad_paths.
  induction paths as [|lp rest IH]; intros bad_paths Hwf H; [discriminate|].
  cbn [check_list_paths] in H.
  rewrite (find_all_well_formed _ rmi (Hwf lp (or_introl eq_refl))), bind_ok in H.
  destruct (py_set (matches (lp ++ "[*].id")%string rmi)) as [s|e'] eqn:Hs.
  - rewrite bind_ok in H.
    destruct (negb _) in H;
      exact (IH _ (fun p Hp => Hwf p (or_intror Hp)) H).
  - injection H as <-. exact (py_set_from_raises _ _ Hs).
Qed.

Lemma check_instances_raises (set_order : list string -> list string)
  (instances : list json) (rmi_index : nat) (bad_paths : list string) (e : exn) :
  (forall rmi lp, In rmi instances -> In lp (set_order (json_paths_to_lists rmi)) ->
                  well_formed (lp ++ "[*].id")%string = true) ->
  check_instances set_order rmi_index instances bad_paths = Raise e -> e = TypeError.
Proof.
  revert rmi_index bad_paths.
  induction instances as [|rmi rest IH]; intros rmi_index bad_paths Hwf H;
    [discriminate|].
  cbn [check_instances] in H. cbv zeta in H.
  destruct (check_list_paths rmi_index rmi (set_order (json_paths_to_lists rmi)) bad_paths)
    as [bp|e'] eqn:Hl.
  - rewrite bind_ok in H.
    exact (IH _ _ (fun r lp Hr => Hwf r lp (or_intror Hr)) H).
  - injection H as <-.
    exact (check_list_paths_raises _ _ _ _ (fun lp => Hwf rmi lp (or_introl eq_refl)) Hl).
Qed.

(** X9. When every id query of every instance parses and one of them
    returns a value that does not hash, a list or a dict, the uniqueness
    check raises [TypeError] and reports nothing, and so does
    [validate_references]. *)
Theorem validate_references_raises_on_unhashable_id
  (set_order : list string -> list string) (py_str : list json -> string)
  (rpd : json) (instances : list json) :
  (forall l, Permutation (set_order l) l) ->
  model_instances rpd = Ok instances ->
  (forall rmi lp, In rmi instances -> In lp (json_paths_to_lists rmi) ->
                  well_formed (lp ++ "[*].id")%string = true) ->
  (exists rmi lp, In rmi instances /\ In lp (json_paths_to_lists rmi)
                  /\ forallb hashable (ids_at rmi lp) = false) ->
  check_unique_ids_in_ruleset_model_descriptions set_order rpd = Raise TypeError
  /\ validate_references set_order py_str rpd = Raise TypeError.
Proof.
  intros Hperm Hinst Hwf (rmi & lp & Hrmi & Hlp & Hbad).
  assert (Hc : collect_bad_paths set_order rpd = Raise TypeError).
  { destruct (collect_bad_paths set_order rpd) as [bad_paths|e] eqn:Hcollect.
    - destruct (collect_bad_paths_returns set_order rpd Hperm Hcollect)
        as (instances' & Hinst' & Hread).
      rewrite Hinst in Hinst'. apply Ok_inj in Hinst'. subst instances'.
      rewrite forallb_forall in Hread. specialize (Hread rmi Hrmi).
      rewrite forallb_forall in Hread. specialize (Hread lp Hlp).
      apply readable_ids in Hread as [_ Hhash]. congruence.
    - f_equal. unfold collect_bad_paths in Hcollect. unfold model_instances in Hinst.
      destruct (py_get rpd "ruleset_model_descriptions" (JArr [])) as [rmds|e'];
        [|discriminate].
      rewrite bind_ok in Hinst. rewrite bind_ok, Hinst, bind_ok in Hcollect.
      apply (check_instances_raises set_order instances 0 []); [|exact Hcollect].
      intros r p Hr Hp. apply (Hwf r p Hr).
      apply (Permutation_in _ (Hperm _)). exact Hp. }
  assert (Hu : check_unique_ids_in_ruleset_model_descriptions set_order rpd
               = Raise TypeError).
  { unfold check_unique_ids_in_ruleset_model_descriptions. now rewrite Hc. }
  split; [exact Hu|]. unfold validate_references. now rewrite Hu.
Qed.

(** X10. The outer loop of the uniqueness check on two lists of instances
    put end to end is the loop on the first list followed by the loop on
    the second, which starts from the index after the first list and from
    the paths collected so far. *)
Theorem check_instances_app
  (set_order : list string -> list string) (l1 l2 : list json)
  (rmi_index : nat) (bad_paths : list string) :
  check_instances set_order rmi_index (l1 ++ l2) bad_paths
  = (collected <- check_instances set_order rmi_index l1 bad_paths ;;
     check_instances set_order (rmi_index + List.length l1) l2 collected).
Proof.
  revert rmi_index bad_paths.
  induction l1 as [|rmi rest IH]; intros rmi_index bad_paths.
  - simpl. now rewrite Nat.add_0_r.
  - cbn [app check_instances List.length]. cbv zeta.
    destruct (check_list_paths rmi_index rmi (set_order (json_paths_to_lists rmi)) bad_paths)
      as [bp|e]; [|reflexivity].
    rewrite !bind_ok, IH. now rewrite Nat.add_succ_r.
Qed.

(** ** Schema validation *)

Lemma string_length_append (a b : string) :
  String.length (a ++ b)%string = String.length a + String.length b.
Proof. induction a as [|c a IH]; simpl; [reflexivity | now rewrite IH]. Qed.

Lemma str_take_length (n : nat) (s : string) :
  String.length (str_take n s) = Nat.min n (String.length s).
Proof.
  revert s. induction n as [|n IH]; intros [|c s]; simpl; try reflexivity.
  now rewrite IH.
Qed.

Lemma str_drop_length (n : nat) (s : string) :
  String.length (str_drop n s) = String.length s - n.
Proof.
  revert s. induction n as [|n IH]; intros [|c s]; simpl; try reflexivity.
  apply IH.
Qed.

Lemma str_take_app (a r : string) : str_take (String.length a) (a ++ r)%string = a.
Proof. induction a as [|c a IH]; simpl; [now destruct r | now rewrite IH]. Qed.

Lemma str_drop_app (a r : string) : str_drop (String.length a) (a ++ r)%string = r.
Proof. induction a as [|c a IH]; simpl; [reflexivity | exact IH]. Qed.

(** X11. The text [schema_validate] keeps of a validator message is never
    longer than 160 characters: a message of at most 160 characters is kept
    whole, and a longer one becomes exactly 160 characters, its first 20,
    ten dots and its last 130. *)
Theorem truncated_message_bounded (message : string) :
  String.length (Schema.truncated_message message) <= 160
  /\ (String.length message <= 160 -> Schema.truncated_message message = message)
  /\ (160 < String.length message ->
      String.length (Schema.truncated_message message) = 160
      /\ py_prefix 20 (Schema.truncated_message message) = py_prefix 20 message
      /\ py_suffix 130 (Schema.truncated_message message) = py_suffix 130 message).
Proof.
  unfold Schema.truncated_message.
  destruct (Nat.ltb 160 (String.length message)) eqn:Hlen.
  - apply Nat.ltb_lt in Hlen.
    assert (Hpre : String.length (py_prefix 20 message) = 20)
      by (unfold py_prefix; rewrite str_take_length; lia).
    assert (Hsuf : String.length (py_suffix 130 message) = 130)
      by (unfold py_suffix; rewrite str_drop_length; lia).
    assert (Htotal : String.length
                       (py_prefix 20 message ++ ".........." ++ py_suffix 130 message)
                     = 160)
      by (rewrite !string_length_append, Hpre, Hsuf; reflexivity).
    split; [lia|]. split; [lia|]. intros _. split; [exact Htotal|]. split.
    + unfold py_prefix at 1. rewrite <- Hpre at 1. apply str_take_app.
    + unfold py_suffix at 1. rewrite Htotal.
      rewrite <- string_append_assoc.
      replace (160 - 130)
        with (String.length (py_prefix 20 message ++ "..........")%string)
        by (rewrite string_length_append, Hpre; reflexivity).
      apply str_drop_app.
  - apply Nat.ltb_ge in Hlen. split; [exact Hlen|]. split; [reflexivity | lia].
Qed.

Section SchemaReport.

Variable iter_errors : json -> Schema.outcome.
Variable format_with_id : list key -> option string.
Variable py_format : json -> string.
Variable exn_text : exn -> string.

Lemma parent_id_of_ok (rpd : json) (path : list key) :
  id_query_parses format_with_id path = true ->
  exists parent_id, Schema.parent_id_of format_with_id rpd path = Ok parent_id.
Proof.
  unfold id_query_parses, Schema.parent_id_of.
  destruct (format_with_id path) as [p|]; [|intros _; eexists; reflexivity].
  intros Hwf. destruct (truthy_str p); [|eexists; reflexivity].
  rewrite (find_all_well_formed _ rpd Hwf). eexists. reflexivity.
Qed.

Lemma parent_id_of_raises (rpd : json) (path : list key) :
  id_query_parses format_with_id path = false ->
  Schema.parent_id_of format_with_id rpd path = Raise MalformedExpression.
Proof.
  unfold id_query_parses, Schema.parent_id_of, well_formed, find_all.
  destruct (format_with_id path) as [p|]; [|discriminate].
  destruct p as [|c p]; [discriminate|]. cbn [truthy_str String.eqb negb].
  destruct (parse (String c p)); [discriminate | reflexivity].
Qed.

Lemma error_message_ok (rpd : json) (full_errors : bool) (e : Schema.validation_error) :
  id_query_parses format_with_id (Schema.absolute_path e) = true ->
  exists text, Schema.error_message format_with_id py_format rpd full_errors e = Ok text.
Proof.
  intros H. unfold Schema.error_message.
  destruct (parent_id_of_ok rpd _ H) as (parent_id & ->).
  rewrite bind_ok. destruct (negb full_errors); eexists; reflexivity.
Qed.

Lemma error_message_raises (rpd : json) (full_errors : bool) (e : Schema.validation_error) :
  id_query_parses format_with_id (Schema.absolute_path e) = false ->
  Schema.error_message format_with_id py_format rpd full_errors e
  = Raise MalformedExpression.
Proof.
  intros H. unfold Schema.error_message. now rewrite (parent_id_of_raises rpd _ H).
Qed.

Lemma collect_error_details_ok (rpd : json) (full_errors : bool)
  (found : list Schema.validation_error) (error_details : list string) :
  forallb (fun e => id_query_parses format_with_id (Schema.absolute_path e)) found = true ->
  exists entries,
    Schema.collect_error_details format_with_id py_format rpd full_errors found
      error_details
    = Ok (error_details ++ entries)
    /\ Forall2 (fun e text =>
                  Schema.error_message format_with_id py_format rpd full_errors e
                  = Ok text)
               found entries.
Proof.
  revert error_details.
  induction found as [|e rest IH]; intros error_details H.
  - exists []. split; [simpl; now rewrite app_nil_r | constructor].
  - simpl in H. apply andb_true_iff in H as [He Hrest].
    destruct (error_message_ok rpd full_errors e He) as (text & Htext).
    destruct (IH (error_details ++ [text]) Hrest) as (entries & Hcollect & Hall).
    exists (text :: entries). split.
    + cbn [Schema.collect_error_details]. rewrite Htext, bind_ok, Hcollect.
      now rewrite <- app_assoc.
    + now constructor.
Qed.

Lemma collect_error_details_raises (rpd : json) (full_errors : bool)
  (found : list Schema.validation_error) (error_details : list string) :
  forallb (fun e => id_query_parses format_with_id (Schema.absolute_path e)) found = false ->
  Schema.collect_error_details format_with_id py_format rpd full_errors found
    error_details
  = Raise MalformedExpression.
Proof.
  revert error_details.
  induction found as [|e rest IH]; intros error_details H; [discriminate|].
  simpl in H. cbn [Schema.collect_error_details].
  destruct (id_query_parses format_with_id (Schema.absolute_path e)) eqn:He.
  - destruct (error_message_ok rpd full_errors e He) as (text & ->).
    rewrite bind_ok. apply IH. exact H.
  - now rewrite (error_message_raises rpd full_errors e He).
Qed.

(** X12. [schema_validate] reports [passed] true exactly when the validator
    found no error, and then no error list.  When the validator found
    errors and every parent-id expression parses, [passed] is false and the
    error list holds one entry for each error, in the order of the
    validator. *)
Theorem schema_validate_one_entry_per_error (rpd : json) (full_errors : bool) :
  (Schema.passed
     (Schema.schema_validate iter_errors format_with_id py_format exn_text rpd full_errors)
   = true
   <-> iter_errors rpd = Schema.Reported [])
  /\ (Schema.errors
        (Schema.schema_validate iter_errors format_with_id py_format exn_text rpd
           full_errors)
      = None
      <-> iter_errors rpd = Schema.Reported [])
  /\ (forall found,
         iter_errors rpd = Schema.Reported found ->
         found <> [] ->
         forallb (fun e => id_query_parses format_with_id (Schema.absolute_path e)) found
         = true ->
         exists entries,
           Schema.schema_validate iter_errors format_with_id py_format exn_text rpd
             full_errors
           = {| Schema.passed := false; Schema.errors := Some entries |}
           /\ Forall2 (fun e text =>
                         Schema.error_message format_with_id py_format rpd full_errors e
                         = Ok text)
                      found entries).
Proof.
  unfold Schema.schema_validate.
  destruct (iter_errors rpd) as [found|text] eqn:Hiter.
  - destruct found as [|e rest].
    + simpl. repeat split; try reflexivity. intros found H. injection H as <-.
      intros Hne. now destruct Hne.
    + cbn [truthy].
      split; [|split].
      * destruct (Schema.collect_error_details _ _ _ _ _ _); simpl;
          split; intros H; discriminate.
      * destruct (Schema.collect_error_details _ _ _ _ _ _); simpl;
          split; intros H; discriminate.
      * intros found H _ Hparse. injection H as <-.
        destruct (collect_error_details_ok rpd full_errors (e :: rest) [] Hparse)
          as (entries & Hcollect & Hall).
        rewrite Hcollect. exists entries. split; [reflexivity | exact Hall].
  - simpl. repeat split; intros; discriminate.
Qed.

(** X13. When the validator found errors and the parent-id expression of
    one of them does not parse, the exception is caught and the report is
    the single entry of the unexpected error: none of the errors the
    validator found is listed. *)
Theorem schema_validate_hides_errors_on_exception
  (rpd : json) (full_errors : bool) (found : list Schema.validation_error) :
  iter_errors rpd = Schema.Reported found ->
  forallb (fun e => id_query_parses format_with_id (Schema.absolute_path e)) found
  = false ->
  Schema.schema_validate iter_errors format_with_id py_format exn_text rpd full_errors
  = {| Schema.passed := false;
       Schema.errors :=
         Some [("Unexpected error: " ++ exn_text MalformedExpression)%string] |}.
Proof.
  intros Hiter Hparse. unfold Schema.schema_validate. rewrite Hiter.
  destruct found as [|e rest]; [discriminate|]. cbn [truthy].
  now rewrite (collect_error_details_raises rpd full_errors (e :: rest) [] Hparse).
Qed.

End SchemaReport.

(** ** Schema files *)

Lemma string_append_inj_r (a b s : string) : (a ++ s = b ++ s)%string -> a = b.
Proof.
  intros H.
  assert (Hlen : String.length a = String.length b).
  { apply (f_equal String.length) in H. rewrite !string_length_append in H. lia. }
  revert b H Hlen.
  induction a as [|c a IH]; intros [|c' b] H Hlen; try discriminate; [reflexivity|].
  simpl in H, Hlen. injection H as -> H. f_equal. apply IH; [exact H | lia].
Qed.

Lemma path_join_schema (file_dir rest : string) :
  path_join file_dir ("schema_versions/" ++ rest)%string
  = (dir_prefix file_dir ++ "schema_versions/" ++ rest)%string.
Proof.
  unfold path_join, dir_prefix. cbn [append].
  destruct (String.eqb file_dir "" || ends_with_slash file_dir); [reflexivity|].
  now rewrite string_append_assoc.
Qed.

(** X15. [get_schema_file_paths] gives the five keys in the order of the
    source, five files that are pairwise different, and files that differ
    from those of every other version: a file listed for two versions
    means the two versions are the same. *)
Theorem schema_file_paths_distinct (file_dir v1 v2 : string) :
  map fst (get_schema_file_paths file_dir v1)
  = ["SCHEMA_PATH"; "SCHEMA_901_ENUM_PATH"; "SCHEMA_T24_ENUM_PATH";
     "SCHEMA_RESNET_ENUM_PATH"; "SCHEMA_OUTPUT_PATH"]%string
  /\ NoDup (map snd (get_schema_file_paths file_dir v1))
  /\ (forall k p,
         In (k, p) (get_schema_file_paths file_dir v1) ->
         In (k, p) (get_schema_file_paths file_dir v2) ->
         v1 = v2).
Proof.
  unfold get_schema_file_paths. rewrite !path_join_schema.
  split; [reflexivity|]. split.
  - cbn [map snd].
    repeat (apply NoDup_cons; [cbn [In]; intros H;
                               repeat (destruct H as [H|H];
                                       [do 3 apply string_append_inj_l in H; discriminate H|]);
                               exact H|]).
    apply NoDup_nil.
  - intros k p H1 H2. cbn [In] in H1, H2.
    destruct H1 as [H1|[H1|[H1|[H1|[H1|[]]]]]]; injection H1 as <- <-;
      destruct H2 as [H2|[H2|[H2|[H2|[H2|[]]]]]];
      pose proof (f_equal fst H2) as Hk; pose proof (f_equal snd H2) as Hp;
      cbn [fst snd] in Hk, Hp; try discriminate Hk;
      apply (string_append_inj_l (dir_prefix file_dir)) in Hp;
      apply (string_append_inj_l "schema_versions/") in Hp;
      apply string_append_inj_r in Hp; symmetry; exact Hp.
Qed.

(** ** The length test of the uniqueness check *)

(** X14. On ids that hash, [set(ids)] returns and the test
    [len(ids) != len(set(ids))] of the uniqueness check holds exactly when
    some id is contained, by Python's [in], in the list of the ids before
    it.  ([in] holds of an item that is the value itself or is equal to it;
    a value of the model is equal to itself, [py_eq_refl], so [py_in] is
    that test.) *)
Theorem length_test_detects_duplicates (ids : list json) :
  forallb hashable ids = true ->
  exists distinct,
    py_set ids = Ok distinct
    /\ (negb (Nat.eqb (List.length ids) (List.length distinct)) = true
        <-> exists j b, nth_error ids j = Some b /\ py_in b (firstn j ids) = true).
Proof.
  intros Hhash.
  destruct (py_set_length ids Hhash) as (s & Hs & Hlen).
  exists s. split; [exact Hs|].
  rewrite Hlen, negb_involutive. apply has_duplicate_contained.
Qed.

Lemma length_test_detects_duplicates_witness :
  exists distinct,
    py_set [JStr "s"; JInt 1; JBool true] = Ok distinct
    /\ (negb (Nat.eqb (List.length [JStr "s"; JInt 1; JBool true]) (List.length distinct))
        = true
        <-> exists j b,
              nth_error [JStr "s"; JInt 1; JBool true] j = Some b
              /\ py_in b (firstn j [JStr "s"; JInt 1; JBool true]) = true).
Proof.
  apply (@length_test_detects_duplicates [JStr "s"; JInt 1; JBool true]).
  reflexivity.
Defined.

(** ** Further concrete runs *)

Lemma checks_empty_without_instances_witness :
  Forall (fun check => check sample_bare_rpd = Ok []) reference_checks.
Proof.
  apply (checks_empty_without_instances sample_bare_rpd).
  vm_compute. reflexivity.
Defined.

Lemma validate_references_passes_without_instances_witness :
  validate_references id_order py_str_plain sample_bare_rpd
  = Ok {| passed := true; error := None |}.
Proof.
  apply (@validate_references_passes_without_instances
           id_order py_str_plain [("id"%string, JStr "rpd")]).
  left. reflexivity.
Defined.

Lemma validate_references_reads_only_instances_witness :
  validate_references id_order py_str_plain sample_pump_rpd'
  = validate_references id_order py_str_plain
      (JObj [("id", JStr "other");
             ("ruleset_model_descriptions",
              JArr [JObj [("id", JStr "rmd");
                          ("pumps", JArr [JObj [("id", JStr "p1");
                                                ("loop_or_piping", JStr "L8")]])]]);
             ("weather", JNull)]).
Proof.
  apply validate_references_reads_only_instances.
  reflexivity.
Defined.


Lemma piping_values_not_reported_witness :
  validate_references id_order py_str_plain sample_pump_rpd
  = validate_references id_order py_str_plain sample_pump_rpd'.
Proof.
  apply piping_values_not_reported; try (vm_compute; reflexivity).
  intros p1 p2 H1 H2. vm_compute in H1, H2.
  apply Ok_inj in H1, H2. subst p1 p2. reflexivity.
Defined.

Lemma unique_ids_empty_text_iff_unique_witness :
  check_unique_ids_in_ruleset_model_descriptions id_order sample_pump_rpd = Ok ""%string
  <-> exists instances,
        model_instances sample_pump_rpd = Ok instances
        /\ forall rmi lp,
             In rmi instances -> In lp (json_paths_to_lists rmi) ->
             readable rmi lp = true
             /\ forall j b,
                  nth_error (ids_at rmi lp) j = Some b ->
                  py_in b (firstn j (ids_at rmi lp)) = false.
Proof.
  apply (@unique_ids_empty_text_iff_unique id_order sample_pump_rpd).
  intros l. apply Permutation_refl.
Defined.

Lemma validate_references_raises_on_non_iterable_witness :
  check_unique_ids_in_ruleset_model_descriptions id_order
    (JObj [("ruleset_model_descriptions", JNull)]) = Raise TypeError
  /\ validate_references id_order py_str_plain
       (JObj [("ruleset_model_descriptions", JNull)]) = Raise TypeError.
Proof.
  apply (@validate_references_raises_on_non_iterable
           id_order py_str_plain [("ruleset_model_descriptions"%string, JNull)] JNull).
  - reflexivity.
  - left. reflexivity.
Defined.

Lemma validate_references_raises_on_unhashable_id_witness :
  check_unique_ids_in_ruleset_model_descriptions id_order sample_list_id_rpd
  = Raise TypeError
  /\ validate_references id_order py_str_plain sample_list_id_rpd = Raise TypeError.
Proof.
  apply (@validate_references_raises_on_unhashable_id
           id_order py_str_plain sample_list_id_rpd
           [JObj [("a"%string, JArr [JObj [("id"%string, JArr [])]])]]).
  - intros l. apply Permutation_refl.
  - reflexivity.
  - intros rmi lp [<-|[]] Hlp. vm_compute in Hlp.
    destruct Hlp as [<-|[<-|[]]]; vm_compute; reflexivity.
  - exists (JObj [("a"%string, JArr [JObj [("id"%string, JArr [])]])]), "$.a"%string.
    split; [left; reflexivity|]. split; [vm_compute; left; reflexivity|].
    vm_compute. reflexivity.
Defined.

Lemma schema_validate_hides_errors_on_exception_witness :
  Schema.schema_validate sample_iter_errors sample_format_with_id py_repr
    sample_exn_text sample_bare_rpd false
  = {| Schema.passed := false;
       Schema.errors := Some ["Unexpected error: malformed expression"%string] |}.
Proof.
  apply (@schema_validate_hides_errors_on_exception
           sample_iter_errors sample_format_with_id py_repr sample_exn_text
           sample_bare_rpd false
           [ {| Schema.message := "'id' is a required property"%string;
                Schema.absolute_path := [KName "ruleset_model_descriptions"; KIndex 0] |};
             {| Schema.message := "3 is not of type 'string'"%string;
                Schema.absolute_path := [KName "id"] |} ]).
  - reflexivity.
  - vm_compute. reflexivity.
Defined.
